(** * letsencrypt: argument pre-processing, the manual authenticator and the
      SNI challenge of the web-server client

    A shallow embedding of

    - [letsencrypt/cli.py]: [HelpfulArgumentParser.determine_verb],
      [HelpfulArgumentParser.prescan_for_flag], [process_domain] and
      [HelpfulArgumentParser.handle_csr];
    - [letsencrypt/plugins/manual.py]: [Authenticator.prepare], [perform],
      [_perform_single] and [cleanup];
    - [client-webserver/sni_challenge.py]: [perform_sni_cert_challenge],
      [cleanup] and the helpers they call.

    Python objects that are mutated in place (the argument list of the parser,
    the namespace of parsed arguments, the plugin instance, the file system)
    are threaded explicitly through the functions.  A Python exception is a
    value of [exn]; a call that raises keeps the mutations made before the
    exception. *)

From Stdlib Require Import Ascii String.
From stdpp Require Import gmap strings list.

(** ** Python values shared by the three modules *)

Module Py.

(** The exception classes raised by the embedded code or by the library
    calls it makes.  [Error], [PluginError] and [ConfigurationError] are
    those of [letsencrypt.errors]; the string is the message. *)
Inductive exn : Type :=
| Error (msg : string)
| PluginError (msg : string)
| ConfigurationError (msg : string)
| AssertionError (msg : string)
| ValueError
| IndexError
| TypeError
| UnboundLocalError (var : string)
| OSError
| IOError
| CryptoError
| SystemExit.

Inductive result (A : Type) : Type :=
| Ok (a : A)
| Raise (e : exn).
Arguments Ok {A} a.
Arguments Raise {A} e.

Definition is_configuration_error (e : exn) : bool :=
  match e with ConfigurationError _ => true | _ => false end.

Definition returns {A} (r : result A) : Prop :=
  match r with Ok _ => True | Raise _ => False end.

Definition raises {A} (r : result A) : Prop :=
  match r with Ok _ => False | Raise _ => True end.

(** Computations over a mutable store [S]: the store after the call is
    returned also when the call raises. *)
Definition M (S A : Type) : Type := S -> result A * S.

Definition ret {S A} (a : A) : M S A := fun s => (Ok a, s).

Definition throw {S A} (e : exn) : M S A := fun s => (Raise e, s).

Definition bind {S A B} (m : M S A) (k : A -> M S B) : M S B :=
  fun s =>
    match m s with
    | (Ok a, s') => k a s'
    | (Raise e, s') => (Raise e, s')
    end.

Definition get {S} : M S S := fun s => (Ok s, s).

Definition modify {S} (f : S -> S) : M S unit := fun s => (Ok tt, f s).

(** [for x in l: body x] *)
Fixpoint for_each {S A} (l : list A) (body : A -> M S unit) : M S unit :=
  match l with
  | [] => ret tt
  | x :: l' => bind (body x) (fun _ => for_each l' body)
  end.

(** ** Strings *)

Definition newline : string := String (ascii_of_nat 10) EmptyString.

(** [s.split(sep)] for a separator of one character: the pieces between
    the separators, empty pieces included; never the empty list. *)
Fixpoint split (sep : ascii) (s : string) : list string :=
  match s with
  | EmptyString => [EmptyString]
  | String c s' =>
      if Ascii.eqb c sep then EmptyString :: split sep s'
      else match split sep s' with
           | piece :: pieces => String c piece :: pieces
           | [] => [String c EmptyString]
           end
  end.

Fixpoint lstrip (s : string) : string :=
  match s with
  | EmptyString => EmptyString
  | String c s' => if Ascii.is_space c then lstrip s' else s
  end.

(** [s.strip()]: white space removed at both ends. *)
Definition strip (s : string) : string :=
  String.rev (lstrip (String.rev (lstrip s))).

Definition lower_ascii (c : ascii) : ascii :=
  let n := nat_of_ascii c in
  if (65 <=? n)%nat && (n <=? 90)%nat then ascii_of_nat (n + 32) else c.

(** [s.lower()] on a byte string. *)
Fixpoint lower (s : string) : string :=
  match s with
  | EmptyString => EmptyString
  | String c s' => String (lower_ascii c) (lower s')
  end.

(** [needle in hay] on strings. *)
Fixpoint contains (needle hay : string) : bool :=
  String.prefix needle hay
  || match hay with
     | EmptyString => false
     | String _ hay' => contains needle hay'
     end.

(** [sep.join(l)] *)
Fixpoint join (sep : string) (l : list string) : string :=
  match l with
  | [] => ""
  | [x] => x
  | x :: l' => x +:+ sep +:+ join sep l'
  end.

(** [l.index(x)]: the position of the first occurrence. *)
Fixpoint index (x : string) (l : list string) : result nat :=
  match l with
  | [] => Raise ValueError
  | y :: l' =>
      if decide (y = x) then Ok 0%nat
      else match index x l' with
           | Ok i => Ok (S i)
           | Raise e => Raise e
           end
  end.

End Py.

Notation "'let!' x ':=' m 'in' k" := (Py.bind m (fun x => k))
  (at level 10, x name, m at level 100, k at level 200,
   format "'[v' 'let!'  x  ':='  m  'in' '/' k ']'").
Notation "'let!' ' p ':=' m 'in' k" :=
  (Py.bind m (fun x => match x with p => k end))
  (at level 10, p strict pattern, m at level 100, k at level 200).
Notation "m >>> k" := (Py.bind m (fun _ => k))
  (at level 100, k at level 200, right associativity).

(** ** [letsencrypt/cli.py] *)

Module Cli.
Import Py.

(** The two attributes of [HelpfulArgumentParser] that [determine_verb] and
    [prescan_for_flag] read and write.  [verb] is unset until
    [determine_verb] has run. *)
Record parser : Type := Parser {
  args : list string;
  verb : option string
}.

(** What [prescan_for_flag] returns: a Python boolean or the flag's
    argument. *)
Inductive flag_value : Type :=
| FlagBool (b : bool)
| FlagArg (nxt : string).

Inductive filetype : Type :=
| FILETYPE_ASN1
| FILETYPE_PEM.

(** [le_util.CSR(file, data, form)] *)
Record CSR : Type := MkCSR {
  csr_file : string;
  csr_data : string;
  csr_form : string
}.

(** The attributes of the [argparse] namespace (or [NamespaceConfig]) that
    [process_domain] and [handle_csr] read and write.  [csr] is the pair
    (file name, contents) the [--csr] flag stores. *)
Record namespace : Type := Namespace {
  ns_verb : string;
  domains : list string;
  webroot_path : list string;
  webroot_map : gmap string string;
  csr : option (string * string);
  actual_csr : option (CSR * filetype)
}.

Definition append_domain (d : string) (ns : namespace) : namespace :=
  Namespace (ns_verb ns) (domains ns ++ [d]) (webroot_path ns)
            (webroot_map ns) (csr ns) (actual_csr ns).

(** [ns.webroot_map.setdefault(d, w)] *)
Definition webroot_setdefault (d w : string) (ns : namespace) : namespace :=
  Namespace (ns_verb ns) (domains ns) (webroot_path ns)
            (match webroot_map ns !! d with
             | Some _ => webroot_map ns
             | None => <[d := w]> (webroot_map ns)
             end)
            (csr ns) (actual_csr ns).

Definition set_actual_csr (c : CSR) (typ : filetype) (ns : namespace)
  : namespace :=
  Namespace (ns_verb ns) (domains ns) (webroot_path ns) (webroot_map ns)
            (csr ns) (Some (c, typ)).

Definition lift {S A} (r : result A) : M S A := fun s => (r, s).

Section Parser.

(** The keys of [main.VERBS], the table of subcommands. *)
Variable VERBS : gset string.

(** The loop [for i, token in enumerate(self.args)] of [determine_verb]:
    the index and the token of the first token that is a key of [VERBS]. *)
Fixpoint first_verb (i : nat) (tokens : list string) : option (nat * string) :=
  match tokens with
  | [] => None
  | token :: tokens' =>
      if decide (token ∈ VERBS) then Some (i, token)
      else first_verb (S i) tokens'
  end.

Definition determine_verb (self : parser) : parser :=
  if decide ("-h" ∈ args self ∨ "--help" ∈ args self) then
    Parser (args self) (Some "help")
  else
    match first_verb 0 (args self) with
    | Some (i, token) =>
        let verb := token in
        let verb := if decide (verb = "auth") then "certonly" else verb in
        let verb := if decide (verb = "everything") then "run" else verb in
        (* self.args.pop(i) *)
        Parser (delete i (args self)) (Some verb)
    | None => Parser (args self) (Some "run")
    end.

(** [possible_arguments] is [self.help_topics] at both call sites: strings
    and [None]. *)
Definition prescan_for_flag (self : parser) (flag : string)
    (possible_arguments : list (option string)) : result flag_value :=
  if decide (flag ∉ args self) then Ok (FlagBool false)
  else
    match index flag (args self) with
    | Raise e => Raise e
    | Ok pos =>
        match args self !! (pos + 1)%nat with
        | Some nxt =>
            if decide (Some nxt ∈ possible_arguments) then Ok (FlagArg nxt)
            else Ok (FlagBool true)
        | None => (* except IndexError: pass *) Ok (FlagBool true)
        end
    end.

End Parser.

Section Domains.

(** [le_util.enforce_domain_sanity]: the sanitised domain, or an exception
    for a domain it refuses. *)
Variable enforce_domain_sanity : string -> result string.

(** [crypto_util.get_sans_from_csr(data, typ)]: the subject alternative names
    of the request; [Raise CryptoError] is [OpenSSL.crypto.Error]. *)
Variable get_sans_from_csr : string -> filetype -> result (list string).

Definition effective_webroot_path (webroot_path_arg : option (list string))
    (ns : namespace) : list string :=
  match webroot_path_arg with
  | Some (w :: ws) => w :: ws
  | _ => webroot_path ns
  end.

(** The body of the loop of [process_domain] for one piece of
    [domain_arg], already stripped. *)
Definition process_one_domain (wpath : list string) (domain : string)
  : M namespace unit :=
  let! domain := lift (enforce_domain_sanity domain) in
  let! ns := get in
  if decide (domain ∈ domains ns) then ret tt
  else
    modify (append_domain domain) >>>
    match last wpath with
    | Some w => modify (webroot_setdefault domain w)
    | None => ret tt
    end.

Definition process_domain (domain_arg : string)
    (webroot_path_arg : option (list string)) : M namespace unit :=
  let! ns := get in
  let wpath := effective_webroot_path webroot_path_arg ns in
  for_each (strip <$> split "," domain_arg) (process_one_domain wpath).

(** The two attempts of [handle_csr] at reading the request, DER first and
    PEM when DER fails with [OpenSSL.crypto.Error]. *)
Definition parse_csr (file data : string)
  : result (CSR * filetype * list string) :=
  match get_sans_from_csr data FILETYPE_ASN1 with
  | Ok sans => Ok (MkCSR file data "der", FILETYPE_ASN1, sans)
  | Raise CryptoError =>
      match get_sans_from_csr data FILETYPE_PEM with
      | Ok sans => Ok (MkCSR file data "pem", FILETYPE_PEM, sans)
      | Raise CryptoError =>
          Raise (Error ("Failed to parse CSR file: " +:+ file))
      | Raise e => Raise e
      end
  | Raise e => Raise e
  end.

Definition check_sanitised (d : string) : M namespace unit :=
  let! sanitised := lift (enforce_domain_sanity d) in
  if decide (lower d ≠ sanitised) then
    throw (ConfigurationError
             ("CSR domain " +:+ d +:+ " needs to be sanitised to "
              +:+ sanitised +:+ "."))
  else ret tt.

Definition handle_csr : M namespace unit :=
  let! parsed_args := get in
  if decide (ns_verb parsed_args ≠ "certonly") then
    throw (Error ("Currently, a CSR file may only be specified "
                  +:+ "when obtaining a new or replacement "
                  +:+ "via the certonly command. Please try the "
                  +:+ "certonly command instead."))
  else
    match csr parsed_args with
    | None => throw TypeError
    | Some (file, data) =>
        let! '(c, typ, sans) := lift (parse_csr file data) in
        for_each sans (fun d => process_domain d None) >>>
        for_each sans check_sanitised >>>
        if decide (sans = []) then
          throw (Error ("Unfortunately, your CSR " +:+ file +:+
                        " needs to have a SubjectAltName for every domain"))
        else
          modify (set_actual_csr c typ) >>>
          let! parsed_args := get in
          let csr_domains : gset string := list_to_set sans in
          let config_domains : gset string :=
            list_to_set (domains parsed_args) in
          if decide (csr_domains ≠ config_domains) then
            throw (ConfigurationError
                     ("Inconsistent domain requests:" +:+ newline
                      +:+ "From the CSR: "
                      +:+ join ", " (elements csr_domains) +:+ newline
                      +:+ "From command line/config: "
                      +:+ join ", " (elements config_domains)))
          else ret tt
    end.

End Domains.

(** A sanitiser and a request reader to run the functions with: the first
    refuses wildcards and lower-cases the rest; the second reads a PEM
    request whose data lists the names, one per line, and no DER request. *)
Definition sim_enforce_domain_sanity (d : string) : result string :=
  if contains "*" d
  then Raise (ConfigurationError "Wildcard domains are not supported")
  else Ok (lower d).

Definition sim_get_sans_from_csr (data : string) (typ : filetype)
  : result (list string) :=
  match typ with
  | FILETYPE_ASN1 => Raise CryptoError
  | FILETYPE_PEM =>
      if decide (data = "") then Ok [] else Ok (split (ascii_of_nat 10) data)
  end.

Definition sim_verbs : gset string :=
  list_to_set ["auth"; "certonly"; "config_changes"; "everything";
               "install"; "plugins"; "renew"; "revoke"; "rollback"; "run"].

End Cli.

(** ** [letsencrypt/plugins/manual.py] *)

Module Manual.
Import Py.

(** The attributes of the configuration the plugin reads.
    [manual_test_mode] is what [self.conf("test-mode")] looks up. *)
Record Config : Type := MkConfig {
  noninteractive_mode : bool;
  http01_port : Z;
  manual_test_mode : bool
}.

(** A [subprocess.Popen] object. *)
Record Popen : Type := MkPopen {
  pid : Z;
  returncode : option Z
}.

(** The plugin instance: [self.config], [self._root] and [self._httpd]. *)
Record Authenticator : Type := MkAuthenticator {
  config : Config;
  _root : string;
  _httpd : option Popen
}.

(** An annotated challenge, [achall]. *)
Record AnnotatedChallenge : Type := MkAChall {
  chall : string;
  domain : string;
  account_key : string
}.

(** The response of a key-authorization challenge. *)
Record Response : Type := MkResponse {
  key_authorization : string
}.

Inductive level : Type :=
| DEBUG
| WARNING.

Inductive signal : Type :=
| SIGTERM.

(** The operating system and the [acme] library as the plugin uses them,
    over a world [W]. *)
Class System (W : Type) : Type := {
  (** [achall.response_and_validation()] *)
  response_and_validation : AnnotatedChallenge -> Response * string;
  (** [response.simple_verify(chall, domain, public_key, port)] *)
  simple_verify : Response -> AnnotatedChallenge -> Z -> M W bool;
  (** [os.path.expanduser] *)
  expanduser : string -> W -> string;
  (** [os.path.exists] *)
  path_exists : string -> W -> bool;
  (** [os.makedirs] *)
  makedirs : string -> M W unit;
  (** [open(path, 'w')], one [write] and the close *)
  write_file : string -> string -> M W unit;
  (** [popen.poll()] *)
  poll : Popen -> M W (option Z);
  (** [os.killpg] *)
  killpg : Z -> signal -> M W unit;
  (** [shutil.rmtree] *)
  rmtree : string -> M W unit
}.

(** The mutable objects a method of the plugin can reach: the instance
    itself, the world and the records of [logger]. *)
Record store (W : Type) : Type := Store {
  self : Authenticator;
  world : W;
  log : list (level * string)
}.
Arguments Store {W} self world log.
Arguments self {W} s.
Arguments world {W} s.
Arguments log {W} s.

(** [os.path.join(a, b)] for two components. *)
Definition path_join (a b : string) : string :=
  if String.prefix "/" b then b
  else if decide (a = "") then b
  else if String.prefix "/" (String.rev a) then a +:+ b
  else a +:+ "/" +:+ b.

Section Plugin.
Context {W : Type} `{System W}.

(** A call of the system, run on the world of the store. *)
Definition sys {A} (op : M W A) : M (store W) A :=
  fun s =>
    let '(r, w) := op (world s) in
    (r, Store (self s) w (log s)).

Definition logger (lvl : level) (msg : string) : M (store W) unit :=
  modify (fun s => Store (self s) (world s) (log s ++ [(lvl, msg)])).

Definition prepare : M (store W) unit :=
  let! s := get in
  if noninteractive_mode (config (self s))
     && negb (manual_test_mode (config (self s)))
  then throw (PluginError
                "Running manual mode non-interactively is not supported")
  else ret tt.

Definition _perform_single (achall : AnnotatedChallenge)
  : M (store W) Response :=
  let '(response, validation) := response_and_validation achall in
  (* target_name, _ = validation.split('.') *)
  match split "." validation with
  | [target_name; _] =>
      let! s := get in
      let target_dir :=
        expanduser "~/.well-known/acme-challenge/" (world s) in
      (if negb (path_exists target_dir (world s))
       then sys (makedirs target_dir) else ret tt) >>>
      let target_path := path_join target_dir target_name in
      sys (write_file target_path validation) >>>
      let! s := get in
      let! verified :=
        sys (simple_verify response achall
               (http01_port (config (self s)))) in
      (if negb verified
       then logger WARNING "Self-verify of challenge failed."
       else ret tt) >>>
      ret response
  | _ => throw ValueError
  end.

(** The loop of [perform], with the list [responses] built so far. *)
Fixpoint perform_loop (achalls : list AnnotatedChallenge)
    (responses : list Response) : M (store W) (list Response) :=
  match achalls with
  | [] => ret responses
  | achall :: achalls' =>
      let! response := _perform_single achall in
      perform_loop achalls' (responses ++ [response])
  end.

Definition perform (achalls : list AnnotatedChallenge)
  : M (store W) (list Response) :=
  perform_loop achalls [].

Definition cleanup (achalls : list AnnotatedChallenge) : M (store W) unit :=
  let! s := get in
  if manual_test_mode (config (self s)) then
    match _httpd (self s) with
    | None =>
        throw (AssertionError "cleanup() must be called after perform()")
    | Some httpd =>
        let! status := sys (poll httpd) in
        match status with
        | None =>
            logger DEBUG "Terminating manual command process" >>>
            sys (killpg (pid httpd) SIGTERM)
        | Some _ =>
            logger DEBUG
              "Manual command process already terminated with %s code"
        end >>>
        sys (rmtree (_root (self s)))
    end
  else ret tt.

End Plugin.

(** A small world to run the plugin in: the directories and files that
    exist, the home directory, the processes still running and what the
    verifier finds when it fetches the challenge. *)
Record sim_world : Type := SimWorld {
  sim_dirs : gset string;
  sim_files : gmap string string;
  sim_home : string;
  sim_running : gset Z;
  sim_reachable : bool
}.

Definition sim_validation (achall : AnnotatedChallenge) : string :=
  chall achall +:+ "." +:+ account_key achall.

#[export] Instance sim_system : System sim_world := {|
  response_and_validation achall :=
    (MkResponse (sim_validation achall), sim_validation achall);
  simple_verify response achall port w :=
    (Ok (sim_reachable w
         && bool_decide (sim_files w !! (sim_home w +:+
               "/.well-known/acme-challenge/" +:+ chall achall)
             = Some (key_authorization response))), w);
  expanduser p w :=
    match p with
    | String "~" rest => sim_home w +:+ rest
    | _ => p
    end;
  path_exists p w := bool_decide (p ∈ sim_dirs w);
  makedirs p w :=
    if decide (p ∈ sim_dirs w) then (Raise OSError, w)
    else (Ok tt, SimWorld ({[p]} ∪ sim_dirs w) (sim_files w) (sim_home w)
                          (sim_running w) (sim_reachable w));
  write_file p text w :=
    (Ok tt, SimWorld (sim_dirs w) (<[p := text]> (sim_files w))
                     (sim_home w) (sim_running w) (sim_reachable w));
  poll p w :=
    (Ok (if decide (pid p ∈ sim_running w) then None else Some 0%Z), w);
  killpg p sig w :=
    if decide (p ∈ sim_running w) then
      (Ok tt, SimWorld (sim_dirs w) (sim_files w) (sim_home w)
                       (sim_running w ∖ {[p]}) (sim_reachable w))
    else (Raise OSError, w);
  rmtree p w :=
    if decide (p ∈ sim_dirs w) then
      (Ok tt, SimWorld (sim_dirs w ∖ {[p]}) (sim_files w) (sim_home w)
                       (sim_running w) (sim_reachable w))
    else (Raise OSError, w)
|}.

(** A challenge for [eg.is], and two plugins in a world with nothing in
    it: one outside test mode, one in test mode that has started no
    command process. *)
Definition sim_achall : AnnotatedChallenge :=
  MkAChall "evaGxfADs6pSRb2LAv9IZf17Dt3juxGJ-PCt92wr-oA" "eg.is"
           "9jg46WB3rR_AHD-EBXdN7cBkH1WOu0tA3M9fm21mqTI".

Definition sim_achall2 : AnnotatedChallenge :=
  MkAChall "DGyRejmCefe7v4NfDGDKfA" "www.eg.is"
           "9jg46WB3rR_AHD-EBXdN7cBkH1WOu0tA3M9fm21mqTI".

Definition sim_empty_world (reachable : bool) : sim_world :=
  SimWorld ∅ ∅ "/root" ∅ reachable.

Definition sim_store (reachable : bool) : store sim_world :=
  Store (MkAuthenticator (MkConfig false 80 false) "/tmp/letsencrypt" None)
        (sim_empty_world reachable) [].

Definition sim_test_store : store sim_world :=
  Store (MkAuthenticator (MkConfig true 80 true) "/tmp/tmpXq3k" None)
        (SimWorld {["/tmp/tmpXq3k"]} ∅ "/root" ∅ true) [].

End Manual.

(** ** The caller of the plugin *)

Module Orchestrator.
Import Py.

(** What the orchestrator reaches: the authenticator with its store, and
    the record of the invocations of the authenticator's [perform], each
    with the list of challenges it was given, latest last. *)
Record store (W : Type) : Type := Store {
  plugin : Manual.store W;
  performed : list (list Manual.AnnotatedChallenge)
}.
Arguments Store {W} plugin performed.
Arguments plugin {W} s.
Arguments performed {W} s.

Section Orchestrator.
Context {W : Type} `{Manual.System W}.

(** An invocation of the authenticator's [perform]: it is recorded with
    its argument, then [perform] runs on the store of the plugin. *)
Definition invoke_perform (achalls : list Manual.AnnotatedChallenge)
  : M (store W) (list Manual.Response) :=
  fun s =>
    let '(r, p) := Manual.perform achalls (plugin s) in
    (r, Store p (performed s ++ [achalls])).

(** Modelled from the spec: the challenge orchestrator, which calls the
    authenticator, is not under [src/].  This is its step from Prepared to
    Performed, in the words of the spec: the authenticator's
    [perform(challenges)] is invoked once for the full batch across all
    domains (never per domain), returning one response object per
    challenge, in the same order as input. *)
Definition prepared_to_performed
    (challenges : list Manual.AnnotatedChallenge)
  : M (store W) (list Manual.Response) :=
  invoke_perform challenges.

End Orchestrator.

End Orchestrator.

(** ** [client-webserver/sni_challenge.py] *)

Module Sni.
Import Py.

Definition CHOC_DIR : string := "/home/james/Documents/apache_choc/".
Definition CHOC_CERT_CONF : string := "choc_cert_extensions.cnf".
Definition OPTIONS_SSL_CONF : string := CHOC_DIR +:+ "options-ssl.conf".
Definition APACHE_CHALLENGE_CONF : string :=
  CHOC_DIR +:+ "choc_sni_cert_challenge.conf".
Definition S_SIZE : nat := 32.

(** A virtual host of the configurator; the code reads [addrs] only. *)
Record VH : Type := MkVH {
  vh_file : string;
  addrs : list string
}.

(** A challenge tuple [(addr, y, nonce, ext_oid)]. *)
Record SNITuple : Type := MkTuple {
  tup0 : string;
  tup1 : string;
  tup2 : string;
  tup3 : string
}.

(** The calls the module makes on the configurator object, on the file
    system and on other programs, in the order it makes them. *)
Inductive event : Type :=
| CfgSave (title : string) (temporary : option bool)
| CfgChooseVirtualHost (name : string)
| CfgMakeServerSniReady (vhost : VH) (default_addr : string)
| CfgFindDirective (directive arg : string)
| CfgAddDir (aug_path directive arg : string)
| CfgRevertConfig
| FileOpen (path mode : string)
| FileRead (path : string)
| FileObjectWrite (path text : string)
| FileClose (path : string)
| FileWrite (path text : string)
| FileRemove (path : string)
| FileMove (src dst : string)
| SubprocessCall (argv : list string)
| SubprocessCheckOutput (argv : list string)
| RsaLoadKey (path : string)
| RsaPrivateDecrypt (y : string)
| RandomBytes (n : nat).

(** What a call of [perform_sni_cert_challenge] hands back: [False] on its
    two early returns, [None] when it runs to its end. *)
Inductive returned : Type :=
| ReturnedFalse
| ReturnedNone.

(** The configurator object and the system, over a world [W]. *)
Class Environment (W : Type) : Type := {
  save : string -> option bool -> M W unit;
  choose_virtual_host : string -> M W (option VH);
  make_server_sni_ready : VH -> string -> M W bool;
  find_directive : string -> string -> M W (list string);
  add_dir : string -> string -> string -> M W unit;
  revert_config : M W unit;
  (** [open(path)] and [open(path, 'w')], the mode being ["r"] or ["w"]:
      with ["w"] the file is created, or emptied when it exists *)
  open_file : string -> string -> M W unit;
  (** the iteration over the lines of the file opened at [path] *)
  read_lines : string -> M W (list string);
  (** [f.write(text)] on the file object opened at [path]: the text goes
      to the buffer of the object *)
  write : string -> string -> M W unit;
  (** [f.close()] on the file object opened at [path] *)
  close : string -> M W unit;
  (** [open(path, 'w')], the writes and the close *)
  write_file : string -> string -> M W unit;
  remove : string -> M W unit;
  move : string -> string -> M W unit;
  (** [subprocess.call]: the exit status of the command *)
  subprocess_call : list string -> M W Z;
  (** [subprocess.check_output]: the output, or [None] for
      [CalledProcessError] *)
  subprocess_check_output : list string -> M W (option string);
  rsa_load_key : string -> M W string;
  rsa_private_decrypt : string -> string -> M W string;
  get_random_bytes : nat -> M W string;
  hmac_sha256_hexdigest : string -> string -> string
}.

(** The world, the calls made so far (latest last) and the lines
    printed. *)
Record store (W : Type) : Type := Store {
  world : W;
  trace : list event;
  stdout : list string
}.
Arguments Store {W} world trace stdout.
Arguments world {W} s.
Arguments trace {W} s.
Arguments stdout {W} s.

Definition hex_digit (n : nat) : ascii :=
  if (n <? 10)%nat then ascii_of_nat (48 + n) else ascii_of_nat (55 + n).

(** ["%02X" % ord(x)] *)
Definition hex_byte (x : ascii) : string :=
  let n := nat_of_ascii x in
  String (hex_digit (n / 16)) (String (hex_digit (n mod 16)) EmptyString).

Fixpoint hex_bytes (byteStr : string) : string :=
  match byteStr with
  | EmptyString => EmptyString
  | String x rest => hex_byte x +:+ hex_bytes rest
  end.

Definition byteToHex (byteStr : string) : string := strip (hex_bytes byteStr).

Definition getChocCertFile (nonce : string) : string :=
  CHOC_DIR +:+ nonce +:+ ".crt".

Definition getConfigText (nonce : string) (ip_addrs : list string)
    (key : string) : string :=
  "<VirtualHost " +:+ join " " ip_addrs +:+ "> " +:+ newline +:+ " "
  +:+ "ServerName " +:+ nonce +:+ ".chocolate " +:+ newline +:+ " "
  +:+ "UseCanonicalName on " +:+ newline +:+ " "
  +:+ "SSLStrictSNIVHostCheck on " +:+ newline +:+ " "
  +:+ newline +:+ " "
  +:+ "LimitRequestBody 1048576 " +:+ newline +:+ " "
  +:+ newline +:+ " "
  +:+ "Include " +:+ OPTIONS_SSL_CONF +:+ " " +:+ newline +:+ " "
  +:+ "SSLCertificateFile " +:+ getChocCertFile nonce +:+ " "
  +:+ newline +:+ " "
  +:+ "SSLCertificateKeyFile " +:+ key +:+ " " +:+ newline +:+ " "
  +:+ newline +:+ " "
  +:+ "DocumentRoot " +:+ CHOC_DIR +:+ "challenge_page/ " +:+ newline +:+ " "
  +:+ "</VirtualHost> " +:+ newline +:+ newline +:+ " ".

(** The text [modifyApacheConfig] writes. *)
Definition challenge_config_text (nonce : string)
    (listlistAddrs : list (list string)) (key : string) : string :=
  fold_left (fun configText lis => configText +:+ getConfigText nonce lis key)
            listlistAddrs ("<IfModule mod_ssl.c> " +:+ newline)
  +:+ "</IfModule> " +:+ newline.

(** The loop of [updateCertConf] over the lines of the old file: the lines
    of the new file and the flag. *)
Fixpoint rewrite_extension (oid value : string) (lines : list string)
  : list string * bool :=
  match lines with
  | [] => ([], false)
  | line :: lines' =>
      let '(out, flag) := rewrite_extension oid value lines' in
      if contains "=critical, DER:" line
      then ((oid +:+ "=critical, DER:" +:+ value +:+ newline) :: out, true)
      else (line :: out, flag)
  end.

(** The address list [perform_sni_cert_challenge] records for a virtual
    host: the [for a in vhost.addrs ... else] statement. *)
Definition challenge_addrs (default_addr : string) (vhost : VH)
  : list string :=
  if existsb (contains "_default_") (addrs vhost) then [default_addr]
  else addrs vhost.

(** [p[:len(p)-1]] *)
Definition drop_last (p : string) : string :=
  String.substring 0 (String.length p - 1) p.

Section Challenge.
Context {W : Type} `{Environment W}.

(** A call of the environment: recorded in the trace, then run on the
    world. *)
Definition call {A} (ev : event) (op : M W A) : M (store W) A :=
  fun s =>
    let '(r, w) := op (world s) in
    (r, Store w (trace s ++ [ev]) (stdout s)).

Definition print (line : string) : M (store W) unit :=
  modify (fun s => Store (world s) (trace s) (stdout s ++ [line])).

Definition findApacheConfigFile : M (store W) (option string) :=
  let argv := ["sudo"; "find"; "/etc"; "-name"; "httpd.conf"] in
  let! out := call (SubprocessCheckOutput argv)
                   (subprocess_check_output argv) in
  match out with
  | Some p =>
      let p := drop_last p in
      print ("Apache Config:  " +:+ p) >>>
      ret (Some p)
  | None =>
      print "httpd.conf not found" >>>
      print "Please include .... in the conf file" >>>
      ret None
  end.

Definition checkForApacheConfInclude (mainConfig : option string)
  : M (store W) unit :=
  let! found := call (CfgFindDirective "Include" APACHE_CHALLENGE_CONF)
                     (find_directive "Include" APACHE_CHALLENGE_CONF) in
  if decide (length found = 0%nat) then
    print "Including challenge virtual host(s)" >>>
    match mainConfig with
    | None => (* "/files" + None *) throw TypeError
    | Some mainConfig =>
        let aug_path := "/files" +:+ mainConfig in
        call (CfgAddDir aug_path "Include" APACHE_CHALLENGE_CONF)
             (add_dir aug_path "Include" APACHE_CHALLENGE_CONF)
    end
  else ret tt.

Definition modifyApacheConfig (mainConfig : option string) (nonce : string)
    (listlistAddrs : list (list string)) (key : string)
  : M (store W) unit :=
  let configText := challenge_config_text nonce listlistAddrs key in
  checkForApacheConfInclude mainConfig >>>
  call (FileWrite APACHE_CHALLENGE_CONF configText)
       (write_file APACHE_CHALLENGE_CONF configText).

(** [confOld] and [confNew] are the file objects opened at
    [CHOC_CERT_CONF] and at [tmp].  The loop reads a line and writes one by
    turns; reading changes no file, so the iteration is recorded as one
    call, ahead of the writes.  On [exit()] neither file object has been
    closed. *)
Definition updateCertConf (oid value : string) : M (store W) unit :=
  let tmp := CHOC_CERT_CONF +:+ ".tmp" in
  call (FileOpen CHOC_CERT_CONF "r") (open_file CHOC_CERT_CONF "r") >>>
  call (FileOpen tmp "w") (open_file tmp "w") >>>
  let! lines := call (FileRead CHOC_CERT_CONF) (read_lines CHOC_CERT_CONF) in
  let '(out, flag) := rewrite_extension oid value lines in
  for_each out (fun text =>
    call (FileObjectWrite tmp text) (write tmp text)) >>>
  if negb flag then
    print "Error: Could not find extension in CHOC_CERT_CONF" >>>
    throw SystemExit
  else
    call (FileClose tmp) (close tmp) >>>
    call (FileClose CHOC_CERT_CONF) (close CHOC_CERT_CONF) >>>
    call (FileRemove CHOC_CERT_CONF) (remove CHOC_CERT_CONF) >>>
    call (FileMove tmp CHOC_CERT_CONF) (move tmp CHOC_CERT_CONF).

Definition createChallengeCert (oid ext nonce csr key : string)
  : M (store W) unit :=
  updateCertConf oid ext >>>
  let argv := ["openssl"; "x509"; "-req"; "-days"; "21"; "-extfile";
               CHOC_CERT_CONF; "-extensions"; "v3_ca"; "-signkey"; key;
               "-out"; getChocCertFile nonce; "-in"; csr] in
  let! _ := call (SubprocessCall argv) (subprocess_call argv) in
  ret tt.

Definition generateExtension (key y : string) : M (store W) string :=
  let! rsaPrivKey := call (RsaLoadKey key) (rsa_load_key key) in
  let! r := call (RsaPrivateDecrypt y) (rsa_private_decrypt rsaPrivKey y) in
  let! s := call (RandomBytes S_SIZE) (get_random_bytes S_SIZE) in
  ret (byteToHex s +:+ hmac_sha256_hexdigest r s).

Definition apache_restart : M (store W) unit :=
  let argv := ["sudo"; "/etc/init.d/apache2"; "reload"] in
  let! _ := call (SubprocessCall argv) (subprocess_call argv) in
  ret tt.

Definition remove_files (listSNITuple : list SNITuple) : M (store W) unit :=
  for_each listSNITuple (fun tup =>
    let path := getChocCertFile (tup2 tup) in
    call (FileRemove path) (remove path)) >>>
  call (FileRemove APACHE_CHALLENGE_CONF) (remove APACHE_CHALLENGE_CONF).

Definition cleanup (listSNITuple : list SNITuple) : M (store W) unit :=
  call CfgRevertConfig revert_config >>>
  apache_restart >>>
  remove_files listSNITuple.

(** The first loop of [perform_sni_cert_challenge]: [None] when the loop
    ends the call with [return False], the address lists otherwise. *)
Fixpoint collect_addresses (default_addr : string)
    (listSNITuple : list SNITuple) (addresses : list (list string))
  : M (store W) (option (list (list string))) :=
  match listSNITuple with
  | [] => ret (Some addresses)
  | tup :: rest =>
      let! vhost := call (CfgChooseVirtualHost (tup0 tup))
                         (choose_virtual_host (tup0 tup)) in
      match vhost with
      | None =>
          print ("No vhost exists with servername or alias of: "
                 +:+ tup0 tup) >>>
          print "No _default_:443 vhost exists" >>>
          print "Please specify servernames in the Apache config" >>>
          ret None
      | Some vhost =>
          let! ready := call (CfgMakeServerSniReady vhost default_addr)
                             (make_server_sni_ready vhost default_addr) in
          if negb ready then ret None
          else collect_addresses default_addr rest
                 (addresses ++ [challenge_addrs default_addr vhost])
      end
  end.

Definition perform_sni_cert_challenge (listSNITuple : list SNITuple)
    (csr key : string) : M (store W) returned :=
  call (CfgSave "Before performing sni_challenge" None)
       (save "Before performing sni_challenge" None) >>>
  let default_addr := "*:443" in
  let! addresses := collect_addresses default_addr listSNITuple [] in
  match addresses with
  | None => ret ReturnedFalse
  | Some addresses =>
      for_each listSNITuple (fun tup =>
        let! ext := generateExtension key (tup1 tup) in
        createChallengeCert (tup3 tup) ext (tup2 tup) csr key) >>>
      let! mainConfig := findApacheConfigFile in
      (* [tup] is the last tuple of the loops, unbound when there was none *)
      match last listSNITuple with
      | None => throw (UnboundLocalError "tup")
      | Some tup =>
          modifyApacheConfig mainConfig (tup2 tup) addresses key >>>
          call (CfgSave "SNI Challenge" (Some true))
               (save "SNI Challenge" (Some true)) >>>
          apache_restart >>>
          ret ReturnedNone
      end
  end.

End Challenge.

(** The calls that write the server's configuration for the challenge:
    the mutation of a virtual host, the [Include] directive added to the
    main configuration and the challenge configuration file. *)
Definition writes_configuration (ev : event) : bool :=
  match ev with
  | CfgMakeServerSniReady _ _ => true
  | CfgAddDir _ _ _ => true
  | FileWrite path _ => bool_decide (path = APACHE_CHALLENGE_CONF)
  | _ => false
  end.

Definition checkpoint : event :=
  CfgSave "Before performing sni_challenge" None.

(** A small world to run the challenge in: the files that exist with their
    lines, the virtual hosts by name, whether the main configuration
    includes the challenge file, the exit status of the server's reload
    script, and what the file objects open for writing hold in their
    buffers. *)
Record sim_world : Type := SimWorld {
  sim_files : gmap string (list string);
  sim_vhosts : gmap string VH;
  sim_included : bool;
  sim_reload_status : Z;
  sim_buffers : gmap string (list string)
}.

Definition sim_set_files (f : gmap string (list string)) (w : sim_world)
  : sim_world :=
  SimWorld f (sim_vhosts w) (sim_included w) (sim_reload_status w)
           (sim_buffers w).

Definition sim_set_included (b : bool) (w : sim_world) : sim_world :=
  SimWorld (sim_files w) (sim_vhosts w) b (sim_reload_status w)
           (sim_buffers w).

Definition sim_set_buffers (b : gmap string (list string)) (w : sim_world)
  : sim_world :=
  SimWorld (sim_files w) (sim_vhosts w) (sim_included w)
           (sim_reload_status w) b.

#[export] Instance sim_environment : Environment sim_world := {|
  save title temporary w := (Ok tt, w);
  choose_virtual_host name w := (Ok (sim_vhosts w !! name), w);
  make_server_sni_ready vhost default_addr w := (Ok true, w);
  find_directive directive arg w :=
    (Ok (if sim_included w then [arg] else []), w);
  add_dir aug_path directive arg w := (Ok tt, sim_set_included true w);
  revert_config w := (Ok tt, sim_set_included false w);
  open_file path mode w :=
    if decide (mode = "w") then
      (Ok tt, sim_set_buffers (<[path := []]> (sim_buffers w))
                (sim_set_files (<[path := []]> (sim_files w)) w))
    else
      match sim_files w !! path with
      | Some _ => (Ok tt, w)
      | None => (Raise IOError, w)
      end;
  read_lines path w :=
    match sim_files w !! path with
    | Some lines => (Ok lines, w)
    | None => (Raise IOError, w)
    end;
  write path text w :=
    match sim_buffers w !! path with
    | Some texts =>
        (Ok tt, sim_set_buffers (<[path := texts ++ [text]]> (sim_buffers w))
                  w)
    | None => (Raise IOError, w)
    end;
  close path w :=
    match sim_buffers w !! path with
    | Some texts =>
        (Ok tt, sim_set_buffers (delete path (sim_buffers w))
                  (sim_set_files
                     (<[path := default [] (sim_files w !! path) ++ texts]>
                        (sim_files w)) w))
    | None => (Ok tt, w)
    end;
  write_file path text w :=
    (Ok tt, sim_set_files (<[path := [text]]> (sim_files w)) w);
  remove path w :=
    match sim_files w !! path with
    | Some _ => (Ok tt, sim_set_files (delete path (sim_files w)) w)
    | None => (Raise OSError, w)
    end;
  move src dst w :=
    match sim_files w !! src with
    | Some lines =>
        (Ok tt, sim_set_files (<[dst := lines]> (delete src (sim_files w))) w)
    | None => (Raise IOError, w)
    end;
  subprocess_call argv w :=
    match argv with
    | "sudo" :: _ => (Ok (sim_reload_status w), w)
    | _ => (Ok 0%Z, w)
    end;
  subprocess_check_output argv w :=
    (Ok (Some ("/etc/apache2/httpd.conf" +:+ newline)), w);
  rsa_load_key path w := (Ok path, w);
  rsa_private_decrypt key y w := (Ok y, w);
  get_random_bytes n w := (Ok (String.concat "" (replicate n "s")), w);
  hmac_sha256_hexdigest r s := "5d5b09f6dcb2d53a5fffc60c4ac0d55f"
|}.

(** [extends m]: the store after [m] has the trace of the store before it,
    followed by the calls [m] made. *)
Definition extends {W A} (m : M (store W) A) : Prop :=
  forall s, exists calls, trace (m s).2 = trace s ++ calls.

(** Two challenges and a world to perform them in: the extension file of
    the challenge certificate, a virtual host for each name; the reload
    script of the server exits with status 1. *)
Definition sim_challenges : list SNITuple :=
  [MkTuple "example.com" "y1" "6e6f6e6365" "1.3.3.7";
   MkTuple "www.example.com" "y2" "6e6f6e636532" "1.3.3.7"].

Definition sim_initial_world : sim_world :=
  SimWorld {[CHOC_CERT_CONF :=
               ["[ v3_ca ]" +:+ newline;
                "1.3.3.7=critical, DER:00" +:+ newline]]}
           {["example.com" := MkVH "/etc/apache2/sites/example" ["*:443"];
             "www.example.com" :=
               MkVH "/etc/apache2/sites/default" ["_default_:443"]]}
           false 1 ∅.

Definition sim_initial_store : store sim_world :=
  Store sim_initial_world [] [].

(** The world after the challenge was performed and the certificates of the
    challenge were written by [openssl]. *)
Definition sim_performed_store : store sim_world :=
  Store (SimWorld {[CHOC_CERT_CONF := ["1.3.3.7=critical, DER:00" +:+ newline];
                    APACHE_CHALLENGE_CONF := ["<IfModule mod_ssl.c>"];
                    getChocCertFile "6e6f6e6365" := ["cert"];
                    getChocCertFile "6e6f6e636532" := ["cert"]]}
                  ∅ true 1 ∅)
        [] [].

End Sni.

(** ** [letsencrypt/cli.py]: the help topics of [HelpfulArgumentParser] *)

Module Help.
Import Py Cli.

#[export] Instance flag_value_eq_dec : EqDecision flag_value.
Proof. solve_decision. Defined.

(** [a > b] on the values [prescan_for_flag] returns, as Python 2 compares
    them: a [bool] is below every [str], two [str] compare byte by byte. *)
Definition flag_gt (a b : flag_value) : bool :=
  match a, b with
  | FlagBool x, FlagBool y => x && negb y
  | FlagArg _, FlagBool _ => true
  | FlagBool _, FlagArg _ => false
  | FlagArg s, FlagArg t => String.ltb t s
  end.

(** [max(a, b)]: the first of the two unless the second is greater. *)
Definition py_max (a b : flag_value) : flag_value :=
  if flag_gt b a then b else a.

(** [not v] *)
Definition flag_falsy (v : flag_value) : bool :=
  match v with
  | FlagBool b => negb b
  | FlagArg s => bool_decide (s = "")
  end.

(** [t == chosen_topic] for a topic [t], a string or [None]. *)
Definition topic_eq (t : option string) (chosen_topic : flag_value) : bool :=
  match chosen_topic with
  | FlagBool _ => false
  | FlagArg s => bool_decide (t = Some s)
  end.

(** [dict(items)]: a later item replaces an earlier one with its key. *)
Definition py_dict {K V} `{Countable K} (items : list (K * V)) : gmap K V :=
  fold_left (fun d kv => <[kv.1 := kv.2]> d) items ∅.

Definition determine_help_topics (help_topics : list (option string))
    (chosen_topic : flag_value) : gmap (option string) bool :=
  let chosen_topic :=
    if decide (chosen_topic = FlagArg "auth") then FlagArg "certonly"
    else chosen_topic in
  let chosen_topic :=
    if decide (chosen_topic = FlagArg "everything") then FlagArg "run"
    else chosen_topic in
  if decide (chosen_topic = FlagArg "all") then
    py_dict ((fun t => (t, true)) <$> help_topics)
  else if flag_falsy chosen_topic then
    py_dict ((fun t => (t, false)) <$> help_topics)
  else
    py_dict ((fun t => (t, topic_eq t chosen_topic)) <$> help_topics).

(** The attributes [__init__] sets that the help machinery uses. *)
Record helpful : Type := Helpful {
  h_parser : parser;
  h_help_topics : list (option string);
  h_help_arg : flag_value;
  h_visible_topics : gmap (option string) bool
}.

Section Init.

(** The keys of [main.VERBS] and the names of the plugins, in the order
    Python iterates over the two dictionaries; the long usage text. *)
Variable verbs : list string.
Variable plugin_names : list string.
Variable usage : string.

Definition HELP_TOPICS : list string :=
  ["all"; "security"; "paths"; "automation"; "testing"] ++ verbs.

(** [__init__] from [self.args = args] on: the object it builds and the
    lines it prints; [Raise SystemExit] is [sys.exit(0)]. *)
Definition init (args : list string) : result helpful * list string :=
  let help_topics :=
    (Some <$> HELP_TOPICS) ++ (Some <$> plugin_names) ++ [None] in
  let self := determine_verb (list_to_set verbs) (Parser args None) in
  match prescan_for_flag self "-h" help_topics with
  | Raise e => (Raise e, [])
  | Ok help1 =>
      match prescan_for_flag self "--help" help_topics with
      | Raise e => (Raise e, [])
      | Ok help2 =>
          let help_arg := py_max help1 help2 in
          if decide (help_arg = FlagBool true) then
            (Raise SystemExit, [usage])
          else
            (Ok (Helpful self help_topics help_arg
                         (determine_help_topics help_topics help_arg)), [])
      end
  end.

End Init.

End Help.

(** ** [letsencrypt/cli.py]: the detection of defaults *)

Module Detect.
Import Py.

(** The Python values that occur as the settings of an argument: [None],
    booleans, integers, strings, lists of strings, dictionaries, the types
    [int] and [str], the function [read_file], any other callable or class
    (by its name) and any other object (by its identity). *)
Inductive pyval : Type :=
| VNone
| VBool (b : bool)
| VInt (n : Z)
| VStr (s : string)
| VList (l : list string)
| VDict (d : gmap string string)
| VTypeInt
| VTypeStr
| VReadFile
| VCallable (name : string)
| VObject (id : nat).

#[export] Instance pyval_eq_dec : EqDecision pyval.
Proof. solve_decision. Defined.

(** The truth value of a Python value. *)
Definition truthy (v : pyval) : bool :=
  match v with
  | VNone => false
  | VBool b => b
  | VInt n => negb (n =? 0)%Z
  | VStr s => negb (bool_decide (s = ""))
  | VList l => negb (bool_decide (l = []))
  | VDict d => negb (bool_decide (d = ∅))
  | _ => true
  end.

(** A list or a dictionary cannot be the key of a dictionary. *)
Definition hashable (v : pyval) : bool :=
  match v with
  | VList _ | VDict _ => false
  | _ => true
  end.

(** [kwargs.get(key, default)] *)
Definition kwargs_get (kwargs : gmap string pyval) (key : string)
    (default : pyval) : pyval :=
  match kwargs !! key with
  | Some v => v
  | None => default
  end.

(** [d[key] = True] on a dictionary kept as the list of its items. *)
Fixpoint dict_set_true (key : pyval) (d : list (pyval * bool))
  : list (pyval * bool) :=
  match d with
  | [] => [(key, true)]
  | (k, v) :: d' =>
      if decide (k = key) then (k, true) :: d'
      else (k, v) :: dict_set_true key d'
  end.

(** The loop [for var in args: self.store_false_vars[var] = True]. *)
Fixpoint mark_store_false (args : list pyval)
  : M (list (pyval * bool)) unit :=
  match args with
  | [] => ret tt
  | var :: args' =>
      if hashable var then
        bind (modify (dict_set_true var)) (fun _ => mark_store_false args')
      else throw TypeError
  end.

(** [modify_arg_for_default_detection(self, *args, **kwargs)]: the store is
    [self.store_false_vars]. *)
Definition modify_arg_for_default_detection (args : list pyval)
    (kwargs : gmap string pyval)
  : M (list (pyval * bool)) (gmap string pyval) :=
  let kwargs :=
    if truthy (kwargs_get kwargs "default" (VBool true)) then
      let arg_type := kwargs_get kwargs "type" VNone in
      if bool_decide (arg_type = VTypeInt)
         || bool_decide (kwargs_get kwargs "action" (VStr "") = VStr "count")
      then <["default" := VInt 0]> kwargs
      else if bool_decide (arg_type = VReadFile)
              || bool_decide (VStr "-c" ∈ args)
      then <["type" := VTypeStr]> (<["default" := VStr ""]> kwargs)
      else <["default" := VStr ""]> kwargs
    else kwargs in
  if decide (kwargs_get kwargs "action" (VStr "") = VStr "store_false") then
    let kwargs := <["default" := VNone]> kwargs in
    mark_store_false args >>>
    ret kwargs
  else ret kwargs.

End Detect.

(** ** [letsencrypt/cli.py]: [parse_args] and the actions of the webroot
       flags *)

Module Args.
Import Py Cli.

(** The namespace [argparse] builds, with the attributes [parse_args]
    reads and writes beside those of [Cli.namespace].  [func] is the name of
    the handler of the verb. *)
Record parsed : Type := Parsed {
  ns : namespace;
  func : option string;
  staging : bool;
  dry_run : bool;
  server : string;
  break_my_certs : bool;
  agree_tos : bool;
  register_unsafely_without_email : bool;
  config_dir : string;
  store_false_vars : option (list (Detect.pyval * bool))
}.

(** The attributes of [HelpfulArgumentParser] that [parse_args] reads. *)
Record arg_parser : Type := ArgParser {
  ap_parser : parser;
  detect_defaults : bool;
  ap_store_false_vars : list (Detect.pyval * bool)
}.

(** How a call of [parse_args] ends: beside the exceptions of [Py.exn],
    the two a missing attribute or key raises. *)
Inductive outcome (A : Type) : Type :=
| Returned (a : A)
| Raised (e : exn)
| RaisedAttributeError (attr : string)
| RaisedKeyError (key : string).
Arguments Returned {A} a.
Arguments Raised {A} e.
Arguments RaisedAttributeError {A} attr.
Arguments RaisedKeyError {A} key.

Definition set_ns (n : namespace) (p : parsed) : parsed :=
  Parsed n (func p) (staging p) (dry_run p) (server p) (break_my_certs p)
         (agree_tos p) (register_unsafely_without_email p) (config_dir p)
         (store_false_vars p).

Definition set_verb (v : string) (n : namespace) : namespace :=
  Namespace v (domains n) (webroot_path n) (webroot_map n) (csr n)
            (actual_csr n).

Definition set_func (f : string) (p : parsed) : parsed :=
  Parsed (ns p) (Some f) (staging p) (dry_run p) (server p)
         (break_my_certs p) (agree_tos p)
         (register_unsafely_without_email p) (config_dir p)
         (store_false_vars p).

Definition set_server (uri : string) (p : parsed) : parsed :=
  Parsed (ns p) (func p) (staging p) (dry_run p) uri (break_my_certs p)
         (agree_tos p) (register_unsafely_without_email p) (config_dir p)
         (store_false_vars p).

(** [parsed_args.break_my_certs = parsed_args.staging = True] *)
Definition set_break_my_certs_staging (p : parsed) : parsed :=
  Parsed (ns p) (func p) true (dry_run p) (server p) true
         (agree_tos p) (register_unsafely_without_email p) (config_dir p)
         (store_false_vars p).

(** [agree_tos = True] and [register_unsafely_without_email = True] *)
Definition set_unattended_registration (p : parsed) : parsed :=
  Parsed (ns p) (func p) (staging p) (dry_run p) (server p)
         (break_my_certs p) true true (config_dir p) (store_false_vars p).

Definition set_store_false_vars (d : list (Detect.pyval * bool))
    (p : parsed) : parsed :=
  Parsed (ns p) (func p) (staging p) (dry_run p) (server p)
         (break_my_certs p) (agree_tos p)
         (register_unsafely_without_email p) (config_dir p) (Some d).

(** A computation on the attributes of [Cli.namespace], run on the whole
    namespace. *)
Definition on_ns {A} (m : M namespace A) : M parsed A :=
  fun p => let '(r, n) := m (ns p) in (r, set_ns n p).

Definition append_webroot_path (webroot : string) (n : namespace)
  : namespace :=
  Namespace (ns_verb n) (domains n) (webroot_path n ++ [webroot])
            (webroot_map n) (csr n) (actual_csr n).

(** A flag of the command line with an action of [cli.py]: [-w], [-d] and
    [--webroot-map], each with its argument. *)
Inductive flag : Type :=
| WebrootPathFlag (webroot : string)
| DomainFlag (domain_arg : string)
| WebrootMapFlag (webroot_map_arg : string).

Section ParseArgs.

Variable enforce_domain_sanity : string -> result string.
Variable get_sans_from_csr : string -> filetype -> result (list string).

(** [self.parser.parse_args(self.args)] of [argparse]. *)
Variable argparse_parse : list string -> result parsed.
(** [main.VERBS]: the handler of each verb, by name. *)
Variable VERBS : gmap string string.
(** [constants.STAGING_URI] and [flag_default("server")]. *)
Variable STAGING_URI : string.
Variable default_server : string.
(** Whether [glob.glob] finds an account under the configuration
    directory. *)
Variable glob_accounts : string -> bool.
(** [d.keys()]: the keys of a dictionary in the order Python iterates. *)
Variable dict_keys : gmap string string -> list string.
(** [json.loads] on the argument of [--webroot-map]: the items of the
    dictionary in the order Python iterates. *)
Variable json_loads : string -> result (list (string * string)).

(** "We get domains from -d, but also from the webroot map". *)
Definition merge_webroot_map_domains : M parsed unit :=
  let! parsed_args := get in
  if decide (webroot_map (ns parsed_args) <> ∅) then
    for_each (dict_keys (webroot_map (ns parsed_args))) (fun domain =>
      let! parsed_args := get in
      if decide (domain ∈ domains (ns parsed_args)) then ret tt
      else on_ns (modify (append_domain domain)))
  else ret tt.

(** The statement [if parsed_args.staging or parsed_args.dry_run] of
    [parse_args]. *)
Definition staging_and_dry_run (self : arg_parser) (verb : string)
  : M parsed unit :=
  let! parsed_args := get in
  if staging parsed_args || dry_run parsed_args then
    (if decide (server parsed_args ∉ [default_server; STAGING_URI]) then
       let conflicts :=
         (if staging parsed_args then ["--staging"] else [])
         ++ (if dry_run parsed_args then ["--dry-run"] else []) in
       if negb (detect_defaults self) then
         throw (Error ("--server value conflicts with "
                       +:+ join " and " conflicts))
       else ret tt
     else ret tt) >>>
    modify (set_server STAGING_URI) >>>
    if dry_run parsed_args then
      (if decide (verb ∉ ["certonly"; "renew"]) then
         throw (Error ("--dry-run currently only works with the "
                       +:+ "'certonly' or 'renew' subcommands ('"
                       +:+ verb +:+ "')"))
       else ret tt) >>>
      modify set_break_my_certs_staging >>>
      if glob_accounts (config_dir parsed_args) then
        modify set_unattended_registration
      else ret tt
    else ret tt
  else ret tt.

(** [parse_args], after the namespace has its [func] and its [verb]. *)
Definition post_parsing (self : arg_parser) (verb : string)
  : M parsed unit :=
  merge_webroot_map_domains >>>
  staging_and_dry_run self verb >>>
  let! parsed_args := get in
  (if decide (csr (ns parsed_args) <> None) then
     on_ns (handle_csr enforce_domain_sanity get_sans_from_csr)
   else ret tt) >>>
  if detect_defaults self then
    modify (set_store_false_vars (ap_store_false_vars self))
  else ret tt.

Definition parse_args (self : arg_parser) : outcome parsed :=
  match argparse_parse (args (ap_parser self)) with
  | Raise e => Raised e
  | Ok parsed_args =>
      match verb (ap_parser self) with
      | None => RaisedAttributeError "verb"
      | Some verb =>
          match VERBS !! verb with
          | None => RaisedKeyError verb
          | Some handler =>
              let parsed_args :=
                set_ns (set_verb verb (ns parsed_args))
                       (set_func handler parsed_args) in
              match post_parsing self verb parsed_args with
              | (Ok _, parsed_args) => Returned parsed_args
              | (Raise e, _) => Raised e
              end
          end
      end
  end.

(** [WebrootPathProcessor.__call__]: the store is the attribute
    [domain_before_webroot] of the action and the namespace. *)
Definition WebrootPathProcessor_call (webroot : string)
  : M (bool * namespace) unit :=
  let! '(domain_before_webroot, args) := get in
  (if decide (webroot_path args = []) then
     if decide (domains args <> []) then
       modify (fun s : bool * namespace => (true, s.2)) >>>
       for_each (domains args) (fun d =>
         modify (fun s : bool * namespace =>
                   (s.1, webroot_setdefault d webroot s.2)))
     else ret tt
   else if (domain_before_webroot : bool) then
     throw (Error ("If you specify multiple webroot paths, one of "
                   +:+ "them must precede all domain flags"))
   else ret tt) >>>
  modify (fun s : bool * namespace =>
            (s.1, append_webroot_path webroot s.2)).

Definition on_args {A} (m : M namespace A) : M (bool * namespace) A :=
  fun s => let '(r, n) := m s.2 in (r, (s.1, n)).

(** [DomainFlagProcessor.__call__] *)
Definition DomainFlagProcessor_call (domain_arg : string)
  : M (bool * namespace) unit :=
  on_args (process_domain enforce_domain_sanity domain_arg None).

(** [WebrootMapProcessor.__call__] *)
Definition WebrootMapProcessor_call (webroot_map_arg : string)
  : M (bool * namespace) unit :=
  let! webroot_map := lift (json_loads webroot_map_arg) in
  for_each webroot_map (fun '(domains, webroot_path) =>
    on_args (process_domain enforce_domain_sanity domains
                            (Some [webroot_path]))).

(** The action [argparse] calls for a flag, and the actions of a command
    line, called from left to right. *)
Definition run_flag (f : flag) : M (bool * namespace) unit :=
  match f with
  | WebrootPathFlag webroot => WebrootPathProcessor_call webroot
  | DomainFlag domain_arg => DomainFlagProcessor_call domain_arg
  | WebrootMapFlag webroot_map_arg => WebrootMapProcessor_call webroot_map_arg
  end.

Definition run_flags (flags : list flag) : M (bool * namespace) unit :=
  for_each flags run_flag.

End ParseArgs.

(** The namespace before any flag: the defaults [[]], [[]] and [{}] of
    [-d], [-w] and [--webroot-map]. *)
Definition initial_args (verb : string) : bool * namespace :=
  (false, Namespace verb [] [] ∅ None None).

(** A reader of the argument of [--webroot-map] for the runs below: one
    item [domains:path]. *)
Definition sim_json_loads (arg : string) : result (list (string * string)) :=
  match split ":" arg with
  | [domains; path] => Ok [(domains, path)]
  | _ => Raise ValueError
  end.

Definition sim_argparse (staging dry_run : bool) (server : string)
    (argv : list string) : result parsed :=
  Ok (Parsed (Namespace "" [] [] ∅ None None) None staging dry_run server
             false false false "/etc/letsencrypt" None).

Definition sim_VERBS : gmap string string :=
  {["certonly" := "obtain_cert"; "renew" := "renew"; "run" := "run";
    "install" := "install"]}.

Definition sim_dict_keys (d : gmap string string) : list string :=
  (map_to_list d).*1.

End Args.

(** ** [letsencrypt/plugins/manual.py]: the construction of the plugin *)

Module ManualInit.
Import Py Manual.

Inductive challenge_type : Type :=
| HTTP01.

(** [__init__]: [mkdtemp] is [tempfile.mkdtemp]. *)
Definition init {W : Type} (mkdtemp : M W string) (cfg : Config)
  : M W Authenticator :=
  if manual_test_mode cfg then
    let! root := mkdtemp in
    ret (MkAuthenticator cfg root None)
  else ret (MkAuthenticator cfg "/tmp/letsencrypt" None).

Definition get_chall_pref (domain : string) : list challenge_type := [HTTP01].

Definition sim_mkdtemp : M sim_world string :=
  fun w =>
    (Ok "/tmp/tmpXq3k",
     SimWorld ({["/tmp/tmpXq3k"]} ∪ sim_dirs w) (sim_files w) (sim_home w)
              (sim_running w) (sim_reachable w)).

End ManualInit.

(** ** Invariants of stores, and classes of calls *)

Module Inv.
Import Py Cli Sni.

(** [preserves P m]: from a store with [P], the store after [m] has [P],
    whether [m] returns or raises. *)
Definition preserves {S A} (P : S -> Prop) (m : M S A) : Prop :=
  forall s, P s -> P (m s).2.

(** The requested domains hold no domain twice, and every domain with a
    webroot is requested. *)
Definition webroots_requested (n : namespace) : Prop :=
  NoDup (domains n)
  /\ (forall d, is_Some (webroot_map n !! d) -> d ∈ domains n).

(** Once a webroot path was given, every requested domain has a webroot. *)
Definition webroots_complete (n : namespace) : Prop :=
  webroot_path n <> [] ->
  forall d, d ∈ domains n -> is_Some (webroot_map n !! d).

Definition consistent (n : namespace) : Prop :=
  webroots_requested n /\ webroots_complete n.

(** The calls on the virtual hosts of the configurator. *)
Definition vhost_call (ev : event) : bool :=
  match ev with
  | CfgChooseVirtualHost _ | CfgMakeServerSniReady _ _ => true
  | _ => false
  end.

(** The calls a run of [cleanup] makes when none of them raises. *)
Definition cleanup_calls (listSNITuple : list SNITuple) : list event :=
  [CfgRevertConfig;
   SubprocessCall ["sudo"; "/etc/init.d/apache2"; "reload"]]
  ++ ((fun tup => FileRemove (getChocCertFile (tup2 tup))) <$> listSNITuple)
  ++ [FileRemove APACHE_CHALLENGE_CONF].

(** An upper-case hexadecimal digit. *)
Definition is_hex_digit (c : ascii) : bool :=
  let n := nat_of_ascii c in
  ((48 <=? n) && (n <=? 57) || (65 <=? n) && (n <=? 70))%nat.

Fixpoint all_chars (p : ascii -> bool) (s : string) : bool :=
  match s with
  | EmptyString => true
  | String c s' => p c && all_chars p s'
  end.

(** The value of a hexadecimal digit, and the bytes a string of such
    digits stands for, two digits a byte. *)
Definition hex_value (c : ascii) : nat :=
  let n := nat_of_ascii c in
  if (n <? 58)%nat then (n - 48)%nat else (n - 55)%nat.

Fixpoint unhex (s : string) : string :=
  match s with
  | String a (String b rest) =>
      String (ascii_of_nat (16 * hex_value a + hex_value b)) (unhex rest)
  | _ => EmptyString
  end.

End Inv.

(** * Properties *)

(** ** The monad of stores *)

Module PyFacts.
Import Py.

Example split_commas :
  split "," "eg.is, example.com" = ["eg.is"; " example.com"].
Proof. reflexivity. Qed.

Example split_empty : split "," "" = [""].
Proof. reflexivity. Qed.

Example split_trailing :
  split "." "token.thumbprint." = ["token"; "thumbprint"; ""].
Proof. reflexivity. Qed.

Example strip_both : strip "  example.com " = "example.com".
Proof. reflexivity. Qed.

Example lower_mixed : lower "WWW.Example.COM" = "www.example.com".
Proof. reflexivity. Qed.

Example contains_default : contains "_default_" "_default_:443" = true.
Proof. reflexivity. Qed.

Example join_addrs : join " " ["*:443"; "*:80"] = "*:443 *:80".
Proof. reflexivity. Qed.

Lemma split_not_nil sep s : split sep s <> [].
Proof.
  destruct s as [|c s]; simpl; [done|].
  destruct (Ascii.eqb c sep); [done|]. by destruct (split sep s).
Qed.

Lemma bind_ok {S A B} (m : M S A) (k : A -> M S B) s a s' :
  m s = (Ok a, s') -> bind m k s = k a s'.
Proof. intros Hm. unfold bind. now rewrite Hm. Qed.

Lemma bind_raise {S A B} (m : M S A) (k : A -> M S B) s e s' :
  m s = (Raise e, s') -> bind m k s = (Raise e, s').
Proof. intros Hm. unfold bind. now rewrite Hm. Qed.

Lemma bind_ok_inv {S A B} (m : M S A) (k : A -> M S B) s b s' :
  bind m k s = (Ok b, s') ->
  exists a s1, m s = (Ok a, s1) /\ k a s1 = (Ok b, s').
Proof.
  unfold bind. destruct (m s) as [[a|e] s1]; [|discriminate].
  intros Hk. by exists a, s1.
Qed.

(** A store invariant kept by every step of a loop is kept by the loop,
    whether it ends or raises. *)
Lemma for_each_invariant {S A} (P : S -> Prop) (body : A -> M S unit) l :
  (forall x s, x ∈ l -> P s -> P (body x s).2) ->
  forall s, P s -> P (for_each l body s).2.
Proof.
  induction l as [|x l IH]; intros Hbody s Hs; simpl; [done|].
  unfold bind. specialize (Hbody x s) as Hx.
  destruct (body x s) as [[[]|e] s1] eqn:Hb; simpl in *.
  - apply IH.
    + intros y s2 Hy. apply Hbody. by right.
    + apply Hx; [by left|done].
  - apply Hx; [by left|done].
Qed.

Lemma index_first x pre rest :
  x ∉ pre -> index x (pre ++ x :: rest) = Ok (length pre).
Proof.
  induction pre as [|y pre IH]; intros Hx; simpl.
  - by rewrite decide_True.
  - rewrite decide_False; [|set_solver]. rewrite IH; [done|set_solver].
Qed.

Lemma list_delete_middle {A} (pre : list A) x post :
  delete (length pre) (pre ++ x :: post) = pre ++ post.
Proof. induction pre as [|y pre IH]; simpl; [done|]. by rewrite IH. Qed.

(** The first occurrence of an element splits the list. *)
Lemma elem_of_first_split (x : string) l :
  x ∈ l -> exists pre post, l = pre ++ x :: post /\ x ∉ pre.
Proof.
  induction l as [|y l IH]; intros Hx; [by apply elem_of_nil in Hx|].
  destruct (decide (y = x)) as [->|Hne].
  - exists [], l. split; [done|]. apply not_elem_of_nil.
  - apply elem_of_cons in Hx as [->|Hx]; [done|].
    destruct (IH Hx) as (pre & post & -> & Hpre).
    exists (y :: pre), post. split; [done|].
    intros [Heq|Hin]%elem_of_cons; [by subst|done].
Qed.

End PyFacts.

(** Closes a decidable goal on concrete data by evaluation. *)
Ltac by_compute :=
  lazymatch goal with
  | |- ?P => apply (@bool_decide_unpack P _); vm_compute; exact I
  end.

(** ** [letsencrypt/cli.py] *)

Module CliFacts.
Import Py Cli PyFacts.

Section ParserFacts.
Variable VERBS : gset string.

Lemma first_verb_none i tokens :
  (forall t, t ∈ tokens -> t ∉ VERBS) -> first_verb VERBS i tokens = None.
Proof.
  revert i. induction tokens as [|t tokens IH]; intros i Hnone; simpl.
  - done.
  - rewrite decide_False; [|apply Hnone; by left].
    apply IH. intros t' Ht'. apply Hnone. by right.
Qed.

Lemma first_verb_found i pre token post :
  (forall t, t ∈ pre -> t ∉ VERBS) -> token ∈ VERBS ->
  first_verb VERBS i (pre ++ token :: post)
  = Some ((i + length pre)%nat, token).
Proof.
  revert i. induction pre as [|t pre IH]; intros i Hpre Htoken; simpl.
  - rewrite decide_True; [|done]. do 2 f_equal. lia.
  - rewrite decide_False; [|apply Hpre; by left].
    rewrite IH; [do 2 f_equal; lia| |done].
    intros t' Ht'. apply Hpre. by right.
Qed.

(** C9.  [determine_verb]: when [-h] or [--help] occurs among the arguments
    the verb is [help] and the arguments are left as they are; otherwise the
    first token that is a known verb is taken out of the arguments and
    becomes the verb, [auth] standing for [certonly] and [everything] for
    [run]; with no known verb among the tokens the verb is [run] and the
    arguments are left as they are. *)
Theorem determine_verb_spec (tokens : list string) (verb0 : option string) :
  let self := Parser tokens verb0 in
  (("-h" ∈ tokens \/ "--help" ∈ tokens) ->
   determine_verb VERBS self = Parser tokens (Some "help"))
  /\ ("-h" ∉ tokens -> "--help" ∉ tokens ->
      forall pre token post,
        tokens = pre ++ token :: post ->
        (forall t, t ∈ pre -> t ∉ VERBS) ->
        token ∈ VERBS ->
        determine_verb VERBS self =
        Parser (pre ++ post)
               (Some (if decide (token = "auth") then "certonly"
                      else if decide (token = "everything") then "run"
                      else token)))
  /\ ("-h" ∉ tokens -> "--help" ∉ tokens ->
      (forall t, t ∈ tokens -> t ∉ VERBS) ->
      determine_verb VERBS self = Parser tokens (Some "run")).
Proof.
  intros self. unfold determine_verb, self. simpl. repeat split.
  - intros Hhelp. by rewrite decide_True.
  - intros Hh Hhelp pre token post -> Hpre Htoken.
    rewrite decide_False; [|tauto].
    rewrite first_verb_found; [|done..]. simpl.
    rewrite list_delete_middle. do 2 f_equal.
    destruct (decide (token = "auth")) as [->|]; [done|].
    by destruct (decide (token = "everything")).
  - intros Hh Hhelp Hnone.
    rewrite decide_False; [|tauto].
    by rewrite first_verb_none.
Qed.

End ParserFacts.

Lemma determine_verb_spec_witness :
  determine_verb sim_verbs (Parser ["--apache"; "auth"; "-d"; "eg.is"] None)
  = Parser ["--apache"; "-d"; "eg.is"] (Some "certonly").
Proof.
  pose proof (determine_verb_spec sim_verbs
                ["--apache"; "auth"; "-d"; "eg.is"] None) as (_ & Hverb & _).
  apply (Hverb ltac:(by_compute) ltac:(by_compute)
               ["--apache"] "auth" ["-d"; "eg.is"]).
  - reflexivity.
  - intros t Ht. apply list_elem_of_singleton in Ht as ->. by_compute.
  - by_compute.
Defined.

(** C10.  [prescan_for_flag]: [False] when the flag is not among the
    arguments; the token that follows the first occurrence of the flag when
    that token is one of the possible arguments; [True] in every other
    case, also when the flag is the last token. *)
Theorem prescan_for_flag_spec (tokens : list string) (verb0 : option string)
    (flag : string) (possible_arguments : list (option string)) :
  let self := Parser tokens verb0 in
  (flag ∉ tokens ->
   prescan_for_flag self flag possible_arguments = Ok (FlagBool false))
  /\ (forall pre nxt post,
        tokens = pre ++ flag :: nxt :: post -> flag ∉ pre ->
        Some nxt ∈ possible_arguments ->
        prescan_for_flag self flag possible_arguments = Ok (FlagArg nxt))
  /\ (forall pre nxt post,
        tokens = pre ++ flag :: nxt :: post -> flag ∉ pre ->
        Some nxt ∉ possible_arguments ->
        prescan_for_flag self flag possible_arguments = Ok (FlagBool true))
  /\ (forall pre,
        tokens = pre ++ [flag] -> flag ∉ pre ->
        prescan_for_flag self flag possible_arguments = Ok (FlagBool true)).
Proof.
  intros self. unfold prescan_for_flag, self. simpl.
  assert (Hnext : forall pre nxt post,
             (pre ++ flag :: nxt :: post) !! (length pre + 1)%nat = Some nxt).
  { intros pre nxt post.
    replace (pre ++ flag :: nxt :: post) with ((pre ++ [flag]) ++ nxt :: post)
      by (by rewrite <- app_assoc).
    replace (length pre + 1)%nat with (length (pre ++ [flag]))
      by (rewrite length_app; simpl; lia).
    apply list_lookup_middle. done. }
  repeat split.
  - intros Hnot. by rewrite decide_True.
  - intros pre nxt post -> Hpre Hposs.
    rewrite decide_False; [|intros Hn; apply Hn; set_solver].
    rewrite index_first; [|done]. rewrite Hnext. by rewrite decide_True.
  - intros pre nxt post -> Hpre Hposs.
    rewrite decide_False; [|intros Hn; apply Hn; set_solver].
    rewrite index_first; [|done]. rewrite Hnext. by rewrite decide_False.
  - intros pre -> Hpre.
    rewrite decide_False; [|intros Hn; apply Hn; set_solver].
    rewrite index_first; [|done].
    rewrite lookup_ge_None_2; [done|]. rewrite length_app. simpl. lia.
Qed.

Lemma prescan_for_flag_spec_witness :
  prescan_for_flag (Parser ["certonly"; "--help"; "paths"; "-d"] None)
                   "--help" [Some "all"; Some "paths"; None]
  = Ok (FlagArg "paths").
Proof.
  pose proof (prescan_for_flag_spec ["certonly"; "--help"; "paths"; "-d"]
                None "--help" [Some "all"; Some "paths"; None])
    as (_ & Harg & _).
  apply (Harg ["certonly"] "paths" ["-d"]).
  - reflexivity.
  - by_compute.
  - by_compute.
Defined.

Section DomainFacts.
Variable enforce_domain_sanity : string -> result string.
Variable get_sans_from_csr : string -> filetype -> result (list string).

Local Abbreviation process_one_domain :=
  (process_one_domain enforce_domain_sanity).
Local Abbreviation process_domain := (process_domain enforce_domain_sanity).
Local Abbreviation check_sanitised := (check_sanitised enforce_domain_sanity).
Local Abbreviation parse_csr := (parse_csr get_sans_from_csr).
Local Abbreviation handle_csr :=
  (handle_csr enforce_domain_sanity get_sans_from_csr).

(** One turn of the loop of [process_domain] leaves the list of domains as
    it is or appends the sanitised domain, which was not in the list. *)
Lemma process_one_domain_domains wpath piece ns :
  domains (process_one_domain wpath piece ns).2 = domains ns
  \/ exists d,
       enforce_domain_sanity piece = Ok d /\ (d ∉ domains ns)
       /\ domains (process_one_domain wpath piece ns).2 = domains ns ++ [d].
Proof.
  unfold Cli.process_one_domain, bind, lift, get.
  destruct (enforce_domain_sanity piece) as [d|e]; simpl; [|by left].
  destruct (decide (d ∈ domains ns)) as [Hin|Hnotin]; simpl; [by left|].
  right. exists d. repeat split; [done|].
  unfold modify. simpl. by destruct (last wpath).
Qed.

(** The domains the loop of [process_domain] appends, for any list of
    pieces. *)
Lemma process_pieces_domains wpath pieces ns :
  NoDup (domains ns) ->
  exists added,
    domains (for_each pieces (process_one_domain wpath) ns).2
    = domains ns ++ added
    /\ NoDup (domains ns ++ added)
    /\ forall d, d ∈ added ->
         exists piece, piece ∈ pieces /\ enforce_domain_sanity piece = Ok d.
Proof.
  revert ns. induction pieces as [|piece pieces IH]; intros ns Hnodup; simpl.
  - exists []. rewrite app_nil_r. repeat split; [done|].
    intros d Hd. by apply elem_of_nil in Hd.
  - unfold bind.
    pose proof (process_one_domain_domains wpath piece ns) as Hone.
    destruct (process_one_domain wpath piece ns) as [[[]|e] ns1] eqn:Hrun;
      simpl in Hone.
    + assert (Hnodup1 : NoDup (domains ns1)).
      { destruct Hone as [->|(d & _ & Hnotin & ->)]; [done|].
        apply NoDup_app. repeat split; [done| |apply NoDup_singleton].
        intros x Hx ->%list_elem_of_singleton. done. }
      destruct (IH ns1 Hnodup1) as (added & Heq & Hnd & Hfrom).
      destruct Hone as [Hsame|(d & Hd & Hnotin & Happ)].
      * exists added. rewrite Heq, Hsame in *. repeat split; [done|].
        intros d Hd. destruct (Hfrom d Hd) as (q & Hq & Hsan).
        exists q. split; [by right|done].
      * exists (d :: added). rewrite Heq, Happ in *.
        rewrite <- !app_assoc in *. simpl in *. repeat split; [done|].
        intros d' [->|Hd']%elem_of_cons.
        -- exists piece. split; [by left|done].
        -- destruct (Hfrom d' Hd') as (q & Hq & Hsan).
           exists q. split; [by right|done].
    + simpl. destruct Hone as [->|(d & Hd & Hnotin & ->)].
      * exists []. rewrite app_nil_r. repeat split; [done|].
        intros d Hd. by apply elem_of_nil in Hd.
      * exists [d]. repeat split.
        -- apply NoDup_app. repeat split; [done| |apply NoDup_singleton].
           intros x Hx ->%list_elem_of_singleton. done.
        -- intros d' ->%list_elem_of_singleton.
           exists piece. split; [by left|done].
Qed.

(** C7.  [process_domain] keeps the list of domains free of duplicates: from
    a list without duplicates, for every domain argument (one domain or
    several separated by commas) and every webroot path, the list after the
    call, whether the call returns or a domain is refused, is the list
    before followed by sanitised domains of the argument that were not in
    it, and holds no domain twice. *)
Theorem process_domain_no_duplicates (domain_arg : string)
    (webroot_path_arg : option (list string)) (ns : namespace) :
  NoDup (domains ns) ->
  let ns' := (process_domain domain_arg webroot_path_arg ns).2 in
  NoDup (domains ns')
  /\ exists added,
       domains ns' = domains ns ++ added
       /\ forall d, d ∈ added ->
            (d ∉ domains ns)
            /\ exists piece,
                 piece ∈ split "," domain_arg
                 /\ enforce_domain_sanity (strip piece) = Ok d.
Proof.
  intros Hnodup. simpl. unfold Cli.process_domain, bind, get.
  destruct (process_pieces_domains
              (effective_webroot_path webroot_path_arg ns)
              (strip <$> split "," domain_arg) ns Hnodup)
    as (added & Heq & Hnd & Hfrom).
  rewrite Heq. split; [done|].
  exists added. split; [done|]. intros d Hd. split.
  - apply NoDup_app in Hnd as (_ & Hdisj & _). intros Hin. by apply (Hdisj d).
  - destruct (Hfrom d Hd) as (q & Hq & Hsan).
    apply list_elem_of_fmap in Hq as (piece & -> & Hpiece). by exists piece.
Qed.





End DomainFacts.

Lemma process_domain_no_duplicates_witness :
  let ns := Namespace "certonly" ["eg.is"] [] ∅ None None in
  NoDup (domains
           (process_domain sim_enforce_domain_sanity
              "eg.is, Example.com,example.com" None ns).2).
Proof.
  intros ns.
  apply (process_domain_no_duplicates sim_enforce_domain_sanity
           "eg.is, Example.com,example.com" None ns).
  by_compute.
Defined.

Example process_domain_run :
  domains (process_domain sim_enforce_domain_sanity
             "eg.is, Example.com,example.com" None
             (Namespace "certonly" ["eg.is"] [] ∅ None None)).2
  = ["eg.is"; "example.com"].
Proof. reflexivity. Qed.



End CliFacts.

(** ** [letsencrypt/plugins/manual.py] *)

Module ManualFacts.
Import Py Manual PyFacts.

Example path_join_token :
  path_join "/root/.well-known/acme-challenge/" "token"
  = "/root/.well-known/acme-challenge/token".
Proof. reflexivity. Qed.

Section PluginFacts.
Context {W : Type} `{System W}.

(** C8.  [prepare] raises [PluginError] if and only if the configuration is
    in non-interactive mode and the test-mode flag of the plugin is not
    set; in every other case it returns; in both cases the plugin, the
    world and the log are as before the call. *)
Theorem prepare_plugin_error_iff (s : store W) :
  let cfg := config (self s) in
  ((exists msg, (prepare s).1 = Raise (PluginError msg))
   <-> noninteractive_mode cfg = true /\ manual_test_mode cfg = false)
  /\ ((prepare s).1 = Ok tt
      <-> ~ (noninteractive_mode cfg = true /\ manual_test_mode cfg = false))
  /\ (prepare s).2 = s.
Proof.
  unfold prepare, bind, get. simpl.
  destruct (noninteractive_mode (config (self s)));
    destruct (manual_test_mode (config (self s))); simpl;
    naive_solver.
Qed.

Lemma perform_loop_acc achalls responses (s : store W) :
  perform_loop achalls responses s =
  match perform_loop achalls [] s with
  | (Ok rs, s') => (Ok (responses ++ rs), s')
  | (Raise e, s') => (Raise e, s')
  end.
Proof.
  revert responses s. induction achalls as [|a achalls IH]; intros rs s; simpl.
  - unfold ret. by rewrite app_nil_r.
  - unfold bind. destruct (_perform_single a s) as [[r|e] s1]; [|done].
    rewrite (IH (rs ++ [r])), (IH ([] ++ [r])).
    destruct (perform_loop achalls [] s1) as [[rs'|e] s2]; [|done].
    by rewrite <- app_assoc.
Qed.

(** [perform] handles the first challenge, then the others, and puts the
    response of the first in front. *)
Lemma perform_cons achall achalls (s : store W) :
  perform (achall :: achalls) s =
  match _perform_single achall s with
  | (Ok response, s1) =>
      match perform achalls s1 with
      | (Ok responses, s2) => (Ok (response :: responses), s2)
      | (Raise e, s2) => (Raise e, s2)
      end
  | (Raise e, s1) => (Raise e, s1)
  end.
Proof.
  unfold perform. simpl. unfold bind.
  destruct (_perform_single achall s) as [[r|e] s1]; [|done].
  by rewrite perform_loop_acc.
Qed.

(** What [_perform_single] returns, when it returns, is the response of
    [response_and_validation]. *)
Lemma _perform_single_response achall (s s' : store W) response :
  _perform_single achall s = (Ok response, s') ->
  response = (response_and_validation achall).1.
Proof.
  unfold _perform_single.
  destruct (response_and_validation achall) as [r validation]. simpl.
  destruct (split "." validation) as [|name [|x [|y rest]]];
    try discriminate.
  intros Hrun.
  repeat (apply bind_ok_inv in Hrun as (? & ? & _ & Hrun)).
  unfold ret in Hrun. by injection Hrun as <- _.
Qed.

Lemma perform_responses achalls (s s' : store W) responses :
  perform achalls s = (Ok responses, s') ->
  responses = (fun achall => (response_and_validation achall).1) <$> achalls.
Proof.
  revert s s' responses. induction achalls as [|a achalls IH];
    intros s s' responses.
  - by intros [= <- _].
  - rewrite perform_cons.
    destruct (_perform_single a s) as [[r|e] s1] eqn:Hone; [|discriminate].
    destruct (perform achalls s1) as [[rs|e] s2] eqn:Hrest; [|discriminate].
    intros [= <- <-]. simpl. f_equal.
    + exact (_perform_single_response _ _ _ _ Hone).
    + exact (IH _ _ _ Hrest).
Qed.

Lemma perform_returns achalls (s : store W) :
  (forall achall s1,
     achall ∈ achalls -> returns (_perform_single achall s1).1) ->
  returns (perform achalls s).1.
Proof.
  revert s. induction achalls as [|a achalls IH]; intros s Hall; [done|].
  rewrite perform_cons.
  pose proof (Hall a s ltac:(by left)) as Hone.
  destruct (_perform_single a s) as [[r|e] s1]; [|done].
  assert (Hrest : returns (perform achalls s1).1).
  { apply IH. intros achall s2 Hin. apply Hall. by right. }
  by destruct (perform achalls s1) as [[rs|e] s2].
Qed.

(** C4.  The step from Prepared to Performed invokes [perform] once, with
    the whole list of challenges, whether [perform] returns or raises: the
    step makes no invocation for a part of the list.  What the step
    returns, and what it leaves of the plugin, is what that one call of
    [perform] gives.  [perform] with no challenge returns the empty list;
    otherwise it handles the first challenge, then the others in their
    order, and an exception of one challenge ends the call.  The step
    returns when [_perform_single] returns for each of the challenges.
    When it returns, the list of responses is as long as the list of
    challenges and its i-th response is the response of the i-th
    challenge. *)
Theorem perform_once_order_preserving (achalls : list AnnotatedChallenge)
    (s : Orchestrator.store W) :
  let r := Orchestrator.prepared_to_performed achalls s in
  Orchestrator.performed r.2 = Orchestrator.performed s ++ [achalls]
  /\ (r.1, Orchestrator.plugin r.2) = perform achalls (Orchestrator.plugin s)
  /\ perform [] (Orchestrator.plugin s) = (Ok [], Orchestrator.plugin s)
  /\ (forall achall,
        perform (achall :: achalls) (Orchestrator.plugin s) =
        match _perform_single achall (Orchestrator.plugin s) with
        | (Ok response, s1) =>
            match perform achalls s1 with
            | (Ok responses, s2) => (Ok (response :: responses), s2)
            | (Raise e, s2) => (Raise e, s2)
            end
        | (Raise e, s1) => (Raise e, s1)
        end)
  /\ ((forall achall s1,
         achall ∈ achalls -> returns (_perform_single achall s1).1) ->
      returns r.1)
  /\ (forall responses,
        r.1 = Ok responses ->
        length responses = length achalls
        /\ forall i achall,
             achalls !! i = Some achall ->
             responses !! i = Some (response_and_validation achall).1).
Proof.
  intros r. subst r.
  unfold Orchestrator.prepared_to_performed, Orchestrator.invoke_perform.
  pose proof (perform_returns achalls (Orchestrator.plugin s)) as Hreturns.
  destruct (perform achalls (Orchestrator.plugin s)) as [res p] eqn:Hrun.
  cbn [fst snd Orchestrator.performed Orchestrator.plugin] in *.
  split; [done|]. split; [done|]. split; [done|].
  split; [intros achall; apply perform_cons|].
  split; [exact Hreturns|].
  intros responses ->. apply perform_responses in Hrun as ->. split.
  - by rewrite length_fmap.
  - intros i achall Hi. by rewrite list_lookup_fmap, Hi.
Qed.

(** C5.  [_perform_single], once the validation has been written to the
    challenge directory: it returns the response of the challenge whatever
    the self-verification finds; when the self-verification fails, the only
    difference is one warning in the log. *)
Theorem perform_single_self_verify (achall : AnnotatedChallenge)
    (s : store W) (target_name rest : string) (w1 w2 w3 : W)
    (verified : bool) :
  let response := (response_and_validation achall).1 in
  let validation := (response_and_validation achall).2 in
  let target_dir := expanduser "~/.well-known/acme-challenge/" (world s) in
  split "." validation = [target_name; rest] ->
  (if path_exists target_dir (world s) then w1 = world s
   else makedirs target_dir (world s) = (Ok tt, w1)) ->
  write_file (path_join target_dir target_name) validation w1 = (Ok tt, w2) ->
  simple_verify response achall (http01_port (config (self s))) w2
  = (Ok verified, w3) ->
  _perform_single achall s =
  (Ok response,
   Store (self s) w3
         (if verified then log s
          else log s ++ [(WARNING, "Self-verify of challenge failed.")])).
Proof.
  intros response validation target_dir Hsplit Hdir Hwrite Hverify.
  unfold _perform_single.
  destruct (response_and_validation achall) as [r v] eqn:Hrv.
  simpl in response, validation. subst response validation.
  rewrite Hsplit. unfold bind at 1. unfold get at 1.
  fold target_dir.
  assert (Hpre : (if negb (path_exists target_dir (world s))
                  then sys (makedirs target_dir) else ret tt) s
                 = (Ok tt, Store (self s) w1 (log s))).
  { destruct (path_exists target_dir (world s)); simpl.
    - subst w1. unfold ret. by destruct s.
    - unfold sys. by rewrite Hdir. }
  unfold bind at 1. rewrite Hpre.
  unfold bind at 1. unfold sys at 1. simpl. rewrite Hwrite.
  unfold bind at 1. unfold get at 1.
  unfold bind at 1. unfold sys at 1. simpl. rewrite Hverify.
  unfold bind, ret, logger, modify. by destruct verified.
Qed.

(** C2, as the code has it.  Outside test mode [cleanup] does nothing: for
    every list of challenges, performed or not, it returns and leaves the
    plugin, the world and the log as they were, so that calling it again
    changes nothing either.  In test mode, with no command process recorded
    in [_httpd], it raises [AssertionError]. *)
Theorem cleanup_outside_test_mode (achalls : list AnnotatedChallenge)
    (s : store W) :
  (manual_test_mode (config (self s)) = false ->
   cleanup achalls s = (Ok tt, s)
   /\ cleanup achalls (cleanup achalls s).2 = (Ok tt, s))
  /\ (manual_test_mode (config (self s)) = true ->
      _httpd (self s) = None ->
      exists msg, cleanup achalls s = (Raise (AssertionError msg), s)).
Proof.
  split.
  - intros Hmode.
    assert (Hrun : cleanup achalls s = (Ok tt, s)).
    { unfold cleanup, bind, get. by rewrite Hmode. }
    by rewrite !Hrun.
  - intros Hmode Hhttpd. unfold cleanup, bind, get.
    rewrite Hmode, Hhttpd. by eexists.
Qed.

End PluginFacts.

Lemma prepare_plugin_error_iff_witness :
  exists msg,
    (prepare (Store (MkAuthenticator (MkConfig true 80 false)
                                     "/tmp/letsencrypt" None)
                    (sim_empty_world true) [])).1
    = Raise (PluginError msg).
Proof.
  apply (proj1 (prepare_plugin_error_iff
                  (Store (MkAuthenticator (MkConfig true 80 false)
                                          "/tmp/letsencrypt" None)
                         (sim_empty_world true) []))).
  split; reflexivity.
Defined.

(** In the small world a challenge whose token and key hold no dot is
    performed without an exception, from every store. *)
Lemma sim_perform_single_returns (achall : AnnotatedChallenge)
    (s : store sim_world) :
  split "." (sim_validation achall) = [chall achall; account_key achall] ->
  returns (_perform_single achall s).1.
Proof.
  intros Hsplit. unfold _perform_single.
  change (response_and_validation achall)
    with (MkResponse (sim_validation achall), sim_validation achall).
  cbv beta iota. rewrite Hsplit.
  unfold bind, get, sys, ret, logger, modify. simpl.
  destruct (bool_decide _) eqn:Hdir; simpl.
  - by destruct (sim_reachable (world s) && _).
  - apply bool_decide_eq_false in Hdir. rewrite decide_False by done. simpl.
    by destruct (sim_reachable (world s) && _).
Qed.

Lemma perform_once_order_preserving_witness :
  let r := Orchestrator.prepared_to_performed [sim_achall; sim_achall2]
             (Orchestrator.Store (sim_store true) []) in
  Orchestrator.performed r.2 = [[sim_achall; sim_achall2]]
  /\ exists responses,
       r.1 = Ok responses
       /\ length responses = 2%nat
       /\ responses !! 1%nat = Some (response_and_validation sim_achall2).1.
Proof.
  intros r.
  destruct (perform_once_order_preserving [sim_achall; sim_achall2]
              (Orchestrator.Store (sim_store true) []))
    as (Honce & _ & _ & _ & Hreturns & Hresponses).
  fold r in Honce, Hreturns, Hresponses. split; [exact Honce|].
  destruct (r.1) as [responses|e] eqn:Hrun.
  2: { exfalso. apply Hreturns. intros achall s1 Hin.
       apply sim_perform_single_returns.
       apply elem_of_cons in Hin as [->|Hin]; [reflexivity|].
       apply list_elem_of_singleton in Hin as ->. reflexivity. }
  exists responses. split; [reflexivity|].
  destruct (Hresponses responses eq_refl) as [Hlen Hnth].
  split; [exact Hlen|]. apply Hnth. reflexivity.
Defined.

Lemma perform_single_self_verify_witness :
  exists w,
    _perform_single sim_achall (sim_store false) =
    (Ok (response_and_validation sim_achall).1,
     Store (self (sim_store false)) w
           [(WARNING, "Self-verify of challenge failed.")]).
Proof.
  eexists.
  eapply (perform_single_self_verify sim_achall (sim_store false)
            "evaGxfADs6pSRb2LAv9IZf17Dt3juxGJ-PCt92wr-oA"
            "9jg46WB3rR_AHD-EBXdN7cBkH1WOu0tA3M9fm21mqTI" _ _ _ false).
  - reflexivity.
  - reflexivity.
  - reflexivity.
  - reflexivity.
Defined.

Lemma cleanup_outside_test_mode_witness :
  cleanup [sim_achall] (sim_store true) = (Ok tt, sim_store true)
  /\ exists msg,
       cleanup [sim_achall] sim_test_store
       = (Raise (AssertionError msg), sim_test_store).
Proof.
  split.
  - apply (proj1 (cleanup_outside_test_mode [sim_achall] (sim_store true))).
    reflexivity.
  - apply (proj2 (cleanup_outside_test_mode [sim_achall] sim_test_store));
      reflexivity.
Defined.

(** C2 as the claim has it fails: in test mode [cleanup] raises
    [AssertionError] for a challenge that was never performed; and as
    [perform] records no command process, it raises as well when called
    after a [perform] that returned. *)
Lemma cleanup_never_performed_raises :
  (cleanup [sim_achall] sim_test_store).1
  = Raise (AssertionError "cleanup() must be called after perform()")
  /\ returns (perform [sim_achall] sim_test_store).1
  /\ (cleanup [sim_achall] (perform [sim_achall] sim_test_store).2).1
     = Raise (AssertionError "cleanup() must be called after perform()").
Proof. split; [reflexivity|]. split; [by vm_compute|by vm_compute]. Qed.

End ManualFacts.

(** ** [client-webserver/sni_challenge.py] *)

Module SniFacts.
Import Py Sni PyFacts.

Create HintDb extends discriminated.

Section ChallengeFacts.
Context {W : Type} `{Environment W}.

Example byteToHex_nonce : byteToHex "nonce" = "6E6F6E6365".
Proof. reflexivity. Qed.

Example drop_last_newline :
  drop_last ("/etc/apache2/httpd.conf" +:+ newline) = "/etc/apache2/httpd.conf".
Proof. reflexivity. Qed.

Lemma extends_ret {A} (a : A) : extends (ret (S := store W) a).
Proof. intros s. exists []. simpl. by rewrite app_nil_r. Qed.

Lemma extends_throw {A} e : extends (throw (S := store W) (A := A) e).
Proof. intros s. exists []. simpl. by rewrite app_nil_r. Qed.

Lemma extends_print line : extends (print (W := W) line).
Proof. intros s. exists []. simpl. by rewrite app_nil_r. Qed.

Lemma extends_call {A} ev (op : M W A) : extends (call ev op).
Proof.
  intros s. exists [ev]. unfold call. by destruct (op (world s)) as [r w].
Qed.

Lemma extends_bind {A B} (m : M (store W) A) (k : A -> M (store W) B) :
  extends m -> (forall a, extends (k a)) -> extends (bind m k).
Proof.
  intros Hm Hk s. unfold bind. destruct (Hm s) as [calls1 Hcalls1].
  destruct (m s) as [[a|e] s1]; simpl in *.
  - destruct (Hk a s1) as [calls2 Hcalls2].
    exists (calls1 ++ calls2). by rewrite Hcalls2, Hcalls1, app_assoc.
  - by exists calls1.
Qed.

Lemma extends_for_each {A} (l : list A) (body : A -> M (store W) unit) :
  (forall x, extends (body x)) -> extends (for_each l body).
Proof.
  intros Hbody. induction l as [|x l IH]; simpl.
  - apply extends_ret.
  - apply extends_bind; [apply Hbody|]. intros _. apply IH.
Qed.

Hint Resolve extends_ret extends_throw extends_print extends_call
  extends_bind extends_for_each : extends.

(** Splits a computation into its steps and closes each with the lemmas
    of the database. *)
Ltac extends_steps :=
  repeat first
    [ apply extends_bind; [|intros ?]
    | apply extends_for_each; intros ?
    | progress auto with extends
    | match goal with
      | |- extends (match ?x with _ => _ end) => destruct x
      | |- extends (if ?b then _ else _) => destruct b
      end ].

Lemma extends_findApacheConfigFile : extends findApacheConfigFile.
Proof. unfold findApacheConfigFile. extends_steps. Qed.

Lemma extends_checkForApacheConfInclude mainConfig :
  extends (checkForApacheConfInclude mainConfig).
Proof. unfold checkForApacheConfInclude. extends_steps. Qed.

Lemma extends_modifyApacheConfig mainConfig nonce listlistAddrs key :
  extends (modifyApacheConfig mainConfig nonce listlistAddrs key).
Proof.
  unfold modifyApacheConfig.
  apply extends_bind; [apply extends_checkForApacheConfInclude|].
  intros _. apply extends_call.
Qed.

Lemma extends_updateCertConf oid value : extends (updateCertConf oid value).
Proof. unfold updateCertConf. extends_steps. Qed.

Lemma extends_createChallengeCert oid ext nonce csr key :
  extends (createChallengeCert oid ext nonce csr key).
Proof.
  unfold createChallengeCert.
  apply extends_bind; [apply extends_updateCertConf|].
  intros _. extends_steps.
Qed.

Lemma extends_generateExtension key y : extends (generateExtension key y).
Proof. unfold generateExtension. extends_steps. Qed.

Lemma extends_apache_restart : extends apache_restart.
Proof. unfold apache_restart. extends_steps. Qed.

Lemma extends_collect_addresses default_addr listSNITuple addresses :
  extends (collect_addresses default_addr listSNITuple addresses).
Proof.
  revert addresses.
  induction listSNITuple as [|tup rest IH]; intros addresses; simpl.
  - apply extends_ret.
  - apply extends_bind; [apply extends_call|]. intros [vhost|].
    + apply extends_bind; [apply extends_call|]. intros [|]; simpl.
      * apply IH.
      * apply extends_ret.
    + extends_steps.
Qed.

(** C1.  The checkpoint precedes every write of the configuration: in
    every run of [perform_sni_cert_challenge], whatever the configurator
    and the system answer and wherever the run ends, the first call made
    is [configurator.save("Before performing sni_challenge")]; hence each
    call of the run that writes the configuration of the server (a
    mutation by [make_server_sni_ready], the [Include] directive added by
    [checkForApacheConfInclude], the challenge file written by
    [modifyApacheConfig]) has that call before it. *)
Theorem checkpoint_precedes_configuration_writes
    (listSNITuple : list SNITuple) (csr key : string) (s : store W) :
  let s' := (perform_sni_cert_challenge listSNITuple csr key s).2 in
  exists calls,
    trace s' = trace s ++ checkpoint :: calls
    /\ forall before ev after,
         checkpoint :: calls = before ++ ev :: after ->
         writes_configuration ev = true ->
         checkpoint ∈ before.
Proof.
  simpl.
  assert (Hfirst : exists calls,
             trace (perform_sni_cert_challenge listSNITuple csr key s).2
             = trace s ++ checkpoint :: calls).
  { unfold perform_sni_cert_challenge. unfold bind at 1.
    unfold call at 1. fold checkpoint.
    destruct (save "Before performing sni_challenge" None (world s))
      as [[[]|e] w1]; simpl; [|by exists []].
    match goal with
    | |- context [bind ?m ?k ?s1] =>
        assert (Hrest : extends (bind m k))
    end.
    { apply extends_bind; [apply extends_collect_addresses|].
      intros [addresses|]; [|apply extends_ret].
      apply extends_bind.
      { apply extends_for_each. intros tup.
        apply extends_bind; [apply extends_generateExtension|].
        intros ext. apply extends_createChallengeCert. }
      intros _. apply extends_bind; [apply extends_findApacheConfigFile|].
      intros mainConfig. destruct (last listSNITuple) as [tup|].
      - apply extends_bind; [apply extends_modifyApacheConfig|].
        intros _. apply extends_bind; [apply extends_call|].
        intros _. apply extends_bind; [apply extends_apache_restart|].
        intros _. apply extends_ret.
      - apply extends_throw. }
    destruct (Hrest (Store w1 (trace s ++ [checkpoint]) (stdout s)))
      as [calls Hcalls].
    exists calls. rewrite Hcalls. simpl. by rewrite <- app_assoc. }
  destruct Hfirst as [calls Hcalls]. exists calls. split; [done|].
  intros [|first before] ev after Hsplit Hwrite.
  - simpl in Hsplit. injection Hsplit as <- _. discriminate.
  - simpl in Hsplit. injection Hsplit as <- _. by left.
Qed.

(** C3, as the code has it.  [cleanup] asks the server to reload after
    the configuration was reverted and does not look at the exit status of
    the reload: whatever the status, it goes on to remove the files of the
    challenge, and it returns when they are removed. *)
Theorem cleanup_ignores_reload_status (listSNITuple : list SNITuple)
    (s : store W) (w1 w2 : W) (status : Z) :
  let reload := ["sudo"; "/etc/init.d/apache2"; "reload"] in
  revert_config (world s) = (Ok tt, w1) ->
  subprocess_call reload w1 = (Ok status, w2) ->
  let s2 := Store w2 (trace s ++ [CfgRevertConfig; SubprocessCall reload])
                  (stdout s) in
  cleanup listSNITuple s = remove_files listSNITuple s2
  /\ forall s3,
       remove_files listSNITuple s2 = (Ok tt, s3) ->
       cleanup listSNITuple s = (Ok tt, s3).
Proof.
  intros reload Hrevert Hreload s2.
  assert (Hrun : cleanup listSNITuple s = remove_files listSNITuple s2).
  { unfold cleanup. unfold bind at 1. unfold call at 1. rewrite Hrevert.
    unfold bind at 1. unfold apache_restart. unfold bind at 1.
    unfold call at 1. simpl. fold reload. rewrite Hreload.
    unfold ret at 1. unfold s2. by rewrite <- app_assoc. }
  split; [done|]. intros s3 Hremove. by rewrite Hrun.
Qed.

End ChallengeFacts.

Lemma cleanup_ignores_reload_status_witness :
  exists s3, cleanup sim_challenges sim_performed_store = (Ok tt, s3).
Proof.
  assert (Hrevert :
            revert_config (world sim_performed_store)
            = (Ok tt, sim_set_included false (world sim_performed_store)))
    by reflexivity.
  assert (Hreload :
            subprocess_call ["sudo"; "/etc/init.d/apache2"; "reload"]
              (sim_set_included false (world sim_performed_store))
            = (Ok 1%Z, sim_set_included false (world sim_performed_store)))
    by reflexivity.
  destruct (cleanup_ignores_reload_status sim_challenges sim_performed_store
              _ _ 1 Hrevert Hreload) as [_ Hreturns].
  eexists. apply Hreturns. vm_compute. reflexivity.
Defined.

(** C3 as the claim has it fails: the reload of the server exits with
    status 1, and [cleanup] returns to its caller as after a reload that
    succeeded. *)
Lemma cleanup_returns_after_failed_reload :
  let reload := ["sudo"; "/etc/init.d/apache2"; "reload"] in
  (subprocess_call reload
     (sim_set_included false (world sim_performed_store))).1 = Ok 1%Z
  /\ (cleanup sim_challenges sim_performed_store).1 = Ok tt
  /\ trace (cleanup sim_challenges sim_performed_store).2 !! 1%nat
     = Some (SubprocessCall reload).
Proof. split; [reflexivity|]. split; by vm_compute. Qed.

Example perform_sni_cert_challenge_run :
  (perform_sni_cert_challenge sim_challenges "req.pem" "key.pem"
     sim_initial_store).1 = Ok ReturnedNone
  /\ head (trace (perform_sni_cert_challenge sim_challenges "req.pem"
                    "key.pem" sim_initial_store).2)
     = Some checkpoint.
Proof. split; by vm_compute. Qed.

End SniFacts.

(** ** [letsencrypt/cli.py]: the help topics *)

Module HelpFacts.
Import Py Cli Help PyFacts.

Lemma py_dict_fold {V} (f : option string -> V) (l : list (option string))
    (acc : gmap (option string) V) t :
  fold_left (fun d kv => <[kv.1 := kv.2]> d) ((fun t => (t, f t)) <$> l) acc
  !! t
  = if decide (t ∈ l) then Some (f t) else acc !! t.
Proof.
  revert acc. induction l as [|x l IH]; intros acc.
  - destruct (decide (t ∈ [])) as [Hin|]; [|done]. by apply elem_of_nil in Hin.
  - rewrite fmap_cons. cbn [fold_left fst snd]. rewrite IH. destruct (decide (t ∈ l)) as [Hin|Hnotin].
    + rewrite decide_True; [done|]. by right.
    + destruct (decide (x = t)) as [->|Hne].
      * rewrite lookup_insert_eq. rewrite decide_True; [done|]. by left.
      * rewrite lookup_insert_ne by done. rewrite decide_False; [done|].
        intros [Heq|Hin]%elem_of_cons; [by subst|done].
Qed.

Lemma py_dict_lookup {V} (f : option string -> V)
    (l : list (option string)) t :
  py_dict ((fun t => (t, f t)) <$> l) !! t
  = if decide (t ∈ l) then Some (f t) else None.
Proof. unfold py_dict. by rewrite py_dict_fold, lookup_empty. Qed.

Lemma determine_help_topics_hidden (help_topics : list (option string)) b t :
  t ∈ help_topics ->
  determine_help_topics help_topics (FlagBool b) !! t = Some false.
Proof.
  intros Hin. unfold determine_help_topics.
  destruct b; simpl; by rewrite py_dict_lookup, decide_True.
Qed.

(** X1.  [determine_help_topics] gives every help topic, and nothing else,
    a visibility: all topics are visible for [all]; none is for a value
    that is false ([False], the empty string) and none for [True]; for
    [auth] the one visible topic is [certonly] and for [everything] it is
    [run], so that the topics [auth] and [everything] themselves are
    hidden; for any other string the one visible topic is that string. *)
Theorem determine_help_topics_spec (help_topics : list (option string))
    (chosen_topic : flag_value) (t : option string) :
  (t ∉ help_topics ->
   determine_help_topics help_topics chosen_topic !! t = None)
  /\ (t ∈ help_topics ->
      let visible := determine_help_topics help_topics chosen_topic !! t in
      (chosen_topic = FlagArg "all" -> visible = Some true)
      /\ (flag_falsy chosen_topic = true -> visible = Some false)
      /\ (chosen_topic = FlagBool true -> visible = Some false)
      /\ (chosen_topic = FlagArg "auth" ->
          visible = Some (bool_decide (t = Some "certonly")))
      /\ (chosen_topic = FlagArg "everything" ->
          visible = Some (bool_decide (t = Some "run")))
      /\ (forall s,
            chosen_topic = FlagArg s ->
            s ∉ [""; "all"; "auth"; "everything"] ->
            visible = Some (bool_decide (t = Some s)))).
Proof.
  split.
  - intros Hnot. unfold determine_help_topics.
    repeat case_decide; try destruct (flag_falsy _);
      rewrite py_dict_lookup; by rewrite decide_False.
  - intros Hin. simpl. unfold determine_help_topics.
    repeat split.
    + intros ->. simpl. by rewrite py_dict_lookup, decide_True.
    + intros Hfalsy.
      destruct chosen_topic as [[]|s]; simpl in Hfalsy; try done.
      * simpl. by rewrite py_dict_lookup, decide_True.
      * apply bool_decide_eq_true in Hfalsy as ->. simpl.
        by rewrite py_dict_lookup, decide_True.
    + intros ->. simpl. by rewrite py_dict_lookup, decide_True.
    + intros ->. simpl. by rewrite py_dict_lookup, decide_True.
    + intros ->. simpl. by rewrite py_dict_lookup, decide_True.
    + intros s -> Hs.
      assert (s <> "" /\ s <> "all" /\ s <> "auth" /\ s <> "everything")
        as (H0 & H1 & H2 & H3).
      { repeat split; intros ->; apply Hs; set_solver. }
      rewrite (decide_False (P := FlagArg s = FlagArg "auth")) by congruence.
      rewrite (decide_False (P := FlagArg s = FlagArg "everything"))
        by congruence.
      rewrite (decide_False (P := FlagArg s = FlagArg "all")) by congruence.
      simpl. rewrite bool_decide_eq_false_2 by done.
      by rewrite py_dict_lookup, decide_True.
Qed.

Lemma determine_help_topics_spec_witness :
  determine_help_topics [Some "all"; Some "auth"; Some "certonly"; None]
                        (FlagArg "auth") !! Some "auth"
  = Some false.
Proof.
  pose proof (determine_help_topics_spec
                [Some "all"; Some "auth"; Some "certonly"; None]
                (FlagArg "auth") (Some "auth")) as [_ Hin].
  destruct (Hin ltac:(by_compute)) as (_ & _ & _ & Hauth & _).
  by rewrite Hauth.
Defined.

(** What [prescan_for_flag] can return. *)
Lemma prescan_for_flag_cases (self : parser) flag possible_arguments :
  ((flag ∉ args self) /\
   prescan_for_flag self flag possible_arguments = Ok (FlagBool false))
  \/ (flag ∈ args self /\
      (prescan_for_flag self flag possible_arguments = Ok (FlagBool true)
       \/ exists nxt,
            Some nxt ∈ possible_arguments
            /\ prescan_for_flag self flag possible_arguments
               = Ok (FlagArg nxt))).
Proof.
  unfold prescan_for_flag.
  destruct (decide (flag ∉ args self)) as [Hnot|Hin]; [by left|].
  right. assert (Hflag : flag ∈ args self).
  { destruct (decide (flag ∈ args self)); [done|by destruct Hin]. }
  split; [done|].
  destruct (elem_of_first_split _ _ Hflag) as (pre & post & Heq & Hpre).
  rewrite Heq, index_first by done.
  destruct ((pre ++ flag :: post) !! (length pre + 1)%nat) as [nxt|];
    [|by left].
  destruct (decide (Some nxt ∈ possible_arguments)); [|by left].
  right. by exists nxt.
Qed.

Lemma determine_verb_help VERBS tokens verb0 :
  "-h" ∈ tokens \/ "--help" ∈ tokens ->
  determine_verb VERBS (Parser tokens verb0) = Parser tokens (Some "help").
Proof. intros Hhelp. unfold determine_verb. simpl. by rewrite decide_True. Qed.

Lemma determine_verb_help_flags VERBS tokens verb0 flag :
  flag = "-h" \/ flag = "--help" ->
  flag ∉ tokens -> flag ∉ args (determine_verb VERBS (Parser tokens verb0)).
Proof.
  intros Hflag Hnot. unfold determine_verb. simpl.
  case_decide; [done|].
  destruct (first_verb VERBS 0 tokens) as [[i token]|]; simpl; [|done].
  intros Hin. apply Hnot. apply list_elem_of_In. apply list_elem_of_In in Hin.
  revert Hin. clear. revert i.
  induction tokens as [|x l IH]; intros [|i]; simpl; try tauto.
  intros [->|Hin]; [by left|]. right. by eapply IH.
Qed.

Section InitFacts.
Variable verbs : list string.
Variable plugin_names : list string.
Variable usage : string.

Local Abbreviation topics :=
  ((Some <$> HELP_TOPICS verbs) ++ (Some <$> plugin_names) ++ [None]).

(** X2.  [__init__] and the help flags.  Without [-h] and [--help] among
    the arguments, the verb is determined, no topic is chosen and every
    help topic is hidden.  With one of them, the verb is [help], the
    arguments are left as they are, and either the usage text is printed
    and the process exits, or a topic among the help topics is chosen. *)
Theorem init_help_flags (tokens : list string) :
  ("-h" ∉ tokens -> "--help" ∉ tokens ->
   init verbs plugin_names usage tokens
   = (Ok (Helpful (determine_verb (list_to_set verbs) (Parser tokens None))
                  topics (FlagBool false)
                  (determine_help_topics topics (FlagBool false))), [])
   /\ forall t, t ∈ topics ->
        determine_help_topics topics (FlagBool false) !! t = Some false)
  /\ ("-h" ∈ tokens \/ "--help" ∈ tokens ->
      init verbs plugin_names usage tokens = (Raise SystemExit, [usage])
      \/ exists topic,
           Some topic ∈ topics
           /\ init verbs plugin_names usage tokens
              = (Ok (Helpful (Parser tokens (Some "help")) topics
                             (FlagArg topic)
                             (determine_help_topics topics (FlagArg topic))),
                 [])).
Proof.
  split.
  - intros Hh Hhelp. split.
    + unfold init.
      pose proof (determine_verb_help_flags (list_to_set verbs) tokens None
                    "-h" ltac:(by left) Hh) as Hh'.
      pose proof (determine_verb_help_flags (list_to_set verbs) tokens None
                    "--help" ltac:(by right) Hhelp) as Hhelp'.
      destruct (prescan_for_flag_cases
                  (determine_verb (list_to_set verbs) (Parser tokens None))
                  "-h" topics) as [[_ ->]|[Hin _]]; [|done].
      destruct (prescan_for_flag_cases
                  (determine_verb (list_to_set verbs) (Parser tokens None))
                  "--help" topics) as [[_ ->]|[Hin _]]; [|done].
      done.
    + intros t Ht. by apply determine_help_topics_hidden.
  - intros Hflags. unfold init.
    rewrite determine_verb_help by done.
    destruct (prescan_for_flag_cases (Parser tokens (Some "help")) "-h"
                topics) as [[Hh ->]|[Hh [->|(t1 & Ht1 & ->)]]];
      destruct (prescan_for_flag_cases (Parser tokens (Some "help")) "--help"
                  topics) as [[Hl ->]|[Hl [->|(t2 & Ht2 & ->)]]];
      simpl in *.
    + destruct Hflags; done.
    + by left.
    + right. by exists t2.
    + by left.
    + by left.
    + right. by exists t2.
    + right. by exists t1.
    + right. by exists t1.
    + right. unfold py_max. simpl.
      destruct (String.ltb t1 t2); [by exists t2|by exists t1].
Qed.

(** X3.  [__init__] prints the usage text and exits exactly when a help
    flag is given and neither [-h] nor [--help] is followed by a help
    topic: a topic after one of the two flags wins over the other flag
    given without one. *)
Theorem init_exits_iff (tokens : list string) :
  let self := determine_verb (list_to_set verbs) (Parser tokens None) in
  init verbs plugin_names usage tokens = (Raise SystemExit, [usage])
  <-> ("-h" ∈ tokens \/ "--help" ∈ tokens)
      /\ (forall topic,
            prescan_for_flag self "-h" topics <> Ok (FlagArg topic)
            /\ prescan_for_flag self "--help" topics <> Ok (FlagArg topic)).
Proof.
  cbv zeta. unfold init. cbv zeta.
  generalize ((Some <$> HELP_TOPICS verbs) ++ (Some <$> plugin_names)
              ++ [None]).
  intros tp.
  destruct (decide ("-h" ∈ tokens \/ "--help" ∈ tokens)) as [Hflags|Hnone].
  - rewrite determine_verb_help by done.
    destruct (prescan_for_flag_cases (Parser tokens (Some "help")) "-h"
                tp) as [[Hh ->]|[Hh [->|(t1 & Ht1 & ->)]]];
      destruct (prescan_for_flag_cases (Parser tokens (Some "help")) "--help"
                  tp) as [[Hl ->]|[Hl [->|(t2 & Ht2 & ->)]]];
      simpl in *; unfold py_max; simpl.
    + destruct Hflags; done.
    + split; [|done]. intros _. split; [done|]. intros topic. split; congruence.
    + split; [discriminate|]. intros [_ Hno]. by destruct (Hno t2) as [? ?].
    + split; [|done]. intros _. split; [done|]. intros topic. split; congruence.
    + split; [|done]. intros _. split; [done|]. intros topic. split; congruence.
    + split; [discriminate|]. intros [_ Hno]. by destruct (Hno t2) as [? ?].
    + split; [discriminate|]. intros [_ Hno]. by destruct (Hno t1) as [? ?].
    + split; [discriminate|]. intros [_ Hno]. by destruct (Hno t1) as [? ?].
    + destruct (String.ltb t1 t2); (split; [discriminate|intros [_ Hno]]);
        by destruct (Hno t1) as [? ?].
  - assert (("-h" ∉ tokens) /\ ("--help" ∉ tokens)) as [Hh Hl] by tauto.
    pose proof (determine_verb_help_flags (list_to_set verbs) tokens None
                  "-h" ltac:(by left) Hh) as Hh'.
    pose proof (determine_verb_help_flags (list_to_set verbs) tokens None
                  "--help" ltac:(by right) Hl) as Hl'.
    destruct (prescan_for_flag_cases
                (determine_verb (list_to_set verbs) (Parser tokens None))
                "-h" tp) as [[_ ->]|[Hin _]]; [|done].
    destruct (prescan_for_flag_cases
                (determine_verb (list_to_set verbs) (Parser tokens None))
                "--help" tp) as [[_ ->]|[Hin _]]; [|done].
    simpl. split; [discriminate|]. intros [Hflags _]. done.
Qed.

End InitFacts.

Lemma init_help_flags_witness :
  exists topic,
    init ["certonly"; "run"] ["apache"] "usage"
         ["certonly"; "--help"; "apache"]
    = (Ok (Helpful (Parser ["certonly"; "--help"; "apache"] (Some "help"))
                   ((Some <$> HELP_TOPICS ["certonly"; "run"])
                    ++ (Some <$> ["apache"]) ++ [None])
                   (FlagArg topic)
                   (determine_help_topics
                      ((Some <$> HELP_TOPICS ["certonly"; "run"])
                       ++ (Some <$> ["apache"]) ++ [None])
                      (FlagArg topic))), []).
Proof.
  destruct (proj2 (init_help_flags ["certonly"; "run"] ["apache"] "usage"
                     ["certonly"; "--help"; "apache"]))
    as [Hexit|(topic & _ & Hrun)].
  - right. by_compute.
  - discriminate Hexit.
  - by exists topic.
Defined.

Lemma init_exits_iff_witness :
  init ["certonly"; "run"] ["apache"] "usage" ["--help"; "-d"; "eg.is"]
  = (Raise SystemExit, ["usage"]).
Proof.
  apply (init_exits_iff ["certonly"; "run"] ["apache"] "usage"
           ["--help"; "-d"; "eg.is"]).
  split; [right; by_compute|].
  intros topic. split; discriminate.
Defined.

End HelpFacts.

(** ** [letsencrypt/cli.py]: the detection of defaults *)

Module DetectFacts.
Import Py Detect PyFacts.

Lemma mark_store_false_ok args d r d' :
  mark_store_false args d = (r, d') ->
  r = Ok tt -> forall var, var ∈ args -> (var, true) ∈ d'.
Proof.
  revert d. induction args as [|a args IH]; intros d Hrun Hok var Hin.
  - by apply elem_of_nil in Hin.
  - simpl in Hrun. destruct (hashable a); [|simplify_eq/=].
    unfold bind, modify in Hrun. simpl in Hrun.
    assert (Hkeep : forall k, (k, true) ∈ dict_set_true a d ->
                              (k, true) ∈ d').
    { clear Hin var. revert Hrun Hok. generalize (dict_set_true a d).
      clear IH. revert r d'.
      induction args as [|b args IH]; intros r d' d0 Hrun Hok k Hk.
      - simpl in Hrun. unfold ret in Hrun. by simplify_eq.
      - simpl in Hrun. destruct (hashable b); [|simplify_eq/=].
        unfold bind, modify in Hrun. simpl in Hrun.
        eapply IH; [exact Hrun|exact Hok|].
        clear -Hk. induction d0 as [|[k0 v0] d0 IH]; simpl.
        + by apply elem_of_nil in Hk.
        + destruct (decide (k0 = b)) as [->|Hne].
          * apply elem_of_cons in Hk as [Heq|Hk]; [|by right].
            simplify_eq. by left.
          * apply elem_of_cons in Hk as [Heq|Hk]; [simplify_eq; by left|].
            right. by apply IH. }
    apply elem_of_cons in Hin as [->|Hin].
    + apply Hkeep. clear. induction d as [|[k0 v0] d IH]; simpl.
      * by left.
      * destruct (decide (k0 = a)) as [->|Hne]; [by left|by right].
    + by eapply IH.
Qed.

Lemma dict_set_true_present key d :
  (key, true) ∈ d -> NoDup d.*1 -> dict_set_true key d = d.
Proof.
  induction d as [|[k v] d IH]; intros Hin Hnd; simpl.
  - by apply elem_of_nil in Hin.
  - apply NoDup_cons in Hnd as [Hk Hnd].
    destruct (decide (k = key)) as [->|Hne].
    + apply elem_of_cons in Hin as [Heq|Hin]; [by simplify_eq|].
      destruct Hk. apply list_elem_of_fmap. by exists (key, true).
    + apply elem_of_cons in Hin as [Heq|Hin]; [by simplify_eq|].
      by rewrite IH.
Qed.

Lemma dict_set_true_keys key d :
  NoDup d.*1 -> NoDup (dict_set_true key d).*1.
Proof.
  induction d as [|[k v] d IH]; intros Hnd; simpl.
  - apply NoDup_singleton.
  - apply NoDup_cons in Hnd as [Hk Hnd].
    destruct (decide (k = key)) as [->|Hne]; simpl.
    + by apply NoDup_cons.
    + apply NoDup_cons. split; [|by apply IH].
      intros Hin. apply Hk. clear -Hin Hne.
      induction d as [|[k0 v0] d IH]; simpl in *.
      * apply list_elem_of_singleton in Hin. by subst.
      * destruct (decide (k0 = key)) as [->|Hne0]; simpl in *; [done|].
        apply elem_of_cons in Hin as [->|Hin]; [by left|]. right. by apply IH.
Qed.

Lemma mark_store_false_keys args d r d' :
  mark_store_false args d = (r, d') -> NoDup d.*1 -> NoDup d'.*1.
Proof.
  revert d. induction args as [|a args IH]; intros d Hrun Hnd; simpl in Hrun.
  - unfold ret in Hrun. by simplify_eq.
  - destruct (hashable a); [|unfold throw in Hrun; by simplify_eq].
    unfold bind, modify in Hrun. simpl in Hrun.
    eapply IH; [exact Hrun|]. by apply dict_set_true_keys.
Qed.

(** Marking the same names again changes nothing. *)
Lemma mark_store_false_again args d :
  NoDup d.*1 -> (forall var, var ∈ args -> (var, true) ∈ d) ->
  (forall var, var ∈ args -> hashable var = true) ->
  mark_store_false args d = (Ok tt, d).
Proof.
  induction args as [|a args IH]; intros Hnd Hall Hhash; simpl; [done|].
  rewrite Hhash by (by left). unfold bind, modify. simpl.
  rewrite dict_set_true_present; [|apply Hall; by left|done].
  apply IH; [done| |].
  - intros var Hvar. apply Hall. by right.
  - intros var Hvar. apply Hhash. by right.
Qed.

Lemma mark_store_false_hashable args d d' :
  mark_store_false args d = (Ok tt, d') ->
  forall var, var ∈ args -> hashable var = true.
Proof.
  revert d. induction args as [|a args IH]; intros d Hrun var Hin.
  - by apply elem_of_nil in Hin.
  - simpl in Hrun. destruct (hashable a) eqn:Ha;
      [|unfold throw in Hrun; by simplify_eq].
    unfold bind, modify in Hrun. simpl in Hrun.
    apply elem_of_cons in Hin as [->|Hin]; [done|]. by eapply IH.
Qed.

Lemma kwargs_get_insert_ne kwargs key key' v default :
  key <> key' ->
  kwargs_get (<[key := v]> kwargs) key' default
  = kwargs_get kwargs key' default.
Proof. intros Hne. unfold kwargs_get. by rewrite lookup_insert_ne. Qed.

(** A run of [modify_arg_for_default_detection] that returns. *)
Lemma modify_arg_run args kwargs kwargs' d d' :
  modify_arg_for_default_detection args kwargs d = (Ok kwargs', d') ->
  exists default,
    kwargs' !! "default" = Some default
    /\ truthy default = false
    /\ (kwargs_get kwargs' "action" (VStr "") = VStr "store_false" ->
        default = VNone /\ mark_store_false args d = (Ok tt, d'))
    /\ (kwargs_get kwargs' "action" (VStr "") <> VStr "store_false" ->
        d' = d).
Proof.
  unfold modify_arg_for_default_detection.
  set (k1 := if truthy (kwargs_get kwargs "default" (VBool true)) then _
             else kwargs).
  assert (Hk1 : exists default, k1 !! "default" = Some default
                                /\ truthy default = false).
  { unfold k1. destruct (truthy (kwargs_get kwargs _ _)) eqn:Htruthy.
    - destruct (_ || _); [|destruct (_ || _)].
      + exists (VInt 0). by rewrite lookup_insert_eq.
      + exists (VStr ""). rewrite lookup_insert_ne by done.
        by rewrite lookup_insert_eq.
      + exists (VStr ""). by rewrite lookup_insert_eq.
    - unfold kwargs_get in Htruthy.
      destruct (kwargs !! "default") as [v|] eqn:Hv; [|done]. by exists v. }
  destruct (decide (kwargs_get k1 "action" (VStr "") = VStr "store_false"))
    as [Hsf|Hsf].
  - unfold bind. destruct (mark_store_false args d) as [[[]|err] d1] eqn:Hm;
      [|discriminate].
    unfold ret. intros [= <- <-]. exists VNone.
    rewrite lookup_insert_eq. split; [done|]. split; [done|].
    split; [done|].
    rewrite kwargs_get_insert_ne by done. intros Hne. by destruct Hne.
  - unfold ret. intros [= <- <-].
    destruct Hk1 as (default & Hdefault & Hfalse).
    exists default. split; [done|]. split; [done|].
    split; [|done]. intros Hyes. by destruct Hsf.
Qed.

(** X4.  [modify_arg_for_default_detection] does what its docstring
    says: whenever it returns, the settings it returns have a default, and
    that default is false in Python's sense, whatever the settings it was
    given. *)
Theorem modify_arg_default_is_false (args : list pyval)
    (kwargs kwargs' : gmap string pyval) (d d' : list (pyval * bool)) :
  modify_arg_for_default_detection args kwargs d = (Ok kwargs', d') ->
  exists default, kwargs' !! "default" = Some default
                  /\ truthy default = false.
Proof.
  intros Hrun.
  destruct (modify_arg_run args kwargs kwargs' d d' Hrun)
    as (default & Hdefault & Hfalse & _).
  by exists default.
Qed.

(** X5.  [modify_arg_for_default_detection] is idempotent: applied to the
    settings and the [store_false_vars] it returned, it returns them
    unchanged. *)
Theorem modify_arg_idempotent (args : list pyval)
    (kwargs kwargs' : gmap string pyval) (d d' : list (pyval * bool)) :
  NoDup d.*1 ->
  modify_arg_for_default_detection args kwargs d = (Ok kwargs', d') ->
  modify_arg_for_default_detection args kwargs' d' = (Ok kwargs', d').
Proof.
  intros Hnd Hrun.
  destruct (modify_arg_run args kwargs kwargs' d d' Hrun)
    as (default & Hdefault & Hfalse & Hyes & Hno).
  assert (Hskip : truthy (kwargs_get kwargs' "default" (VBool true)) = false).
  { unfold kwargs_get. by rewrite Hdefault. }
  unfold modify_arg_for_default_detection. rewrite Hskip.
  destruct (decide (kwargs_get kwargs' "action" (VStr "")
                    = VStr "store_false")) as [Hsf|Hsf]; [|done].
  destruct (Hyes Hsf) as [-> Hmark].
  unfold bind. rewrite mark_store_false_again.
  - unfold ret. by rewrite insert_id.
  - by eapply mark_store_false_keys.
  - intros var Hvar. by eapply mark_store_false_ok.
  - by eapply mark_store_false_hashable.
Qed.

Lemma modify_arg_default_is_false_witness :
  exists default,
    (<["default" := VInt 0]> {["type" := VTypeInt; "default" := VInt 443]}
     : gmap string pyval) !! "default" = Some default
    /\ truthy default = false.
Proof.
  apply (modify_arg_default_is_false
           [VObject 0; VStr "--tls-sni-01-port"]
           {["type" := VTypeInt; "default" := VInt 443]}
           _ [] []).
  reflexivity.
Defined.

Lemma modify_arg_idempotent_witness :
  modify_arg_for_default_detection
    [VObject 0; VStr "--no-redirect"]
    (<["default" := VNone]> {["action" := VStr "store_false"]})
    [(VObject 0, true); (VStr "--no-redirect", true)]
  = (Ok (<["default" := VNone]> {["action" := VStr "store_false"]}),
     [(VObject 0, true); (VStr "--no-redirect", true)]).
Proof.
  apply (modify_arg_idempotent
           [VObject 0; VStr "--no-redirect"]
           {["action" := VStr "store_false"]} _ [] _).
  - apply NoDup_nil_2.
  - reflexivity.
Defined.

End DetectFacts.

(** ** [letsencrypt/cli.py]: [parse_args] and the webroot flags *)

Module ArgsFacts.
Import Py Cli Args Inv PyFacts.

Lemma preserves_ret {S A} (P : S -> Prop) (a : A) : preserves P (ret a).
Proof. by intros s Hs. Qed.


Lemma preserves_lift {S A} (P : S -> Prop) (r : result A) :
  preserves P (lift r).
Proof. by intros s Hs. Qed.


Lemma preserves_bind {S A B} (P : S -> Prop) (m : M S A) (k : A -> M S B) :
  preserves P m -> (forall a, preserves P (k a)) -> preserves P (bind m k).
Proof.
  intros Hm Hk s Hs. unfold bind. specialize (Hm s Hs).
  destruct (m s) as [[a|e] s1]; simpl in *; [by apply Hk|done].
Qed.

(** A step that reads the store first preserves what it preserves for
    the store it read. *)
Lemma preserves_get_bind {S B} (P : S -> Prop) (k : S -> M S B) :
  (forall s0, P s0 -> P (k s0 s0).2) -> preserves P (bind get k).
Proof. intros Hk s Hs. unfold bind, get. by apply Hk. Qed.

Lemma preserves_for_each {S A} (P : S -> Prop) (l : list A)
    (body : A -> M S unit) :
  (forall x, preserves P (body x)) -> preserves P (for_each l body).
Proof.
  intros Hbody. induction l as [|x l IH]; simpl.
  - apply preserves_ret.
  - apply preserves_bind; [apply Hbody|]. intros _. apply IH.
Qed.


Lemma preserves_on_args {A} (P : namespace -> Prop) (b : bool)
    (m : M namespace A) :
  preserves P m ->
  preserves (fun s : bool * namespace => s.1 = b /\ P s.2) (on_args m).
Proof.
  intros Hm s [Hb Hp]. unfold on_args. specialize (Hm s.2 Hp).
  by destruct (m s.2) as [r n].
Qed.

Lemma for_each_app {S A} (l1 l2 : list A) (body : A -> M S unit) s :
  for_each (l1 ++ l2) body s =
  bind (for_each l1 body) (fun _ => for_each l2 body) s.
Proof.
  revert s. induction l1 as [|x l1 IH]; intros s; simpl; [done|].
  unfold bind. destruct (body x s) as [[[]|e] s1]; [|done].
  rewrite IH. by unfold bind.
Qed.

Section DomainInvariants.
Variable enforce_domain_sanity : string -> result string.

Local Abbreviation process_one_domain :=
  (process_one_domain enforce_domain_sanity).
Local Abbreviation process_domain := (process_domain enforce_domain_sanity).

(** What one turn of the loop of [process_domain] does to the
    namespace. *)
Lemma process_one_domain_store wpath piece n :
  (process_one_domain wpath piece n).2 = n
  \/ exists d,
       (d ∉ domains n)
       /\ (process_one_domain wpath piece n).2 =
          match last wpath with
          | Some w => webroot_setdefault d w (append_domain d n)
          | None => append_domain d n
          end.
Proof.
  unfold Cli.process_one_domain, bind, lift, get.
  destruct (enforce_domain_sanity piece) as [d|e]; simpl; [|by left].
  destruct (decide (d ∈ domains n)) as [Hin|Hnotin]; simpl; [by left|].
  right. exists d. split; [done|]. unfold modify. simpl.
  by destruct (last wpath).
Qed.

Lemma webroot_setdefault_lookup d w n d' :
  webroot_map (webroot_setdefault d w n) !! d' =
  match webroot_map n !! d' with
  | Some w' => Some w'
  | None => if decide (d = d') then Some w else None
  end.
Proof.
  unfold webroot_setdefault. simpl.
  destruct (webroot_map n !! d) as [w0|] eqn:Hmap.
  - destruct (webroot_map n !! d') as [w'|] eqn:Hmap'; [done|].
    rewrite decide_False; [done|]. intros ->. congruence.
  - destruct (decide (d = d')) as [->|Hne].
    + by rewrite lookup_insert_eq, Hmap.
    + rewrite lookup_insert_ne by done. by destruct (webroot_map n !! d').
Qed.

Lemma process_one_domain_requested wpath piece :
  preserves webroots_requested (process_one_domain wpath piece).
Proof.
  intros n [Hnd Hkeys].
  destruct (process_one_domain_store wpath piece n) as [->|(d & Hd & ->)];
    [done|].
  assert (Hnd' : NoDup (domains n ++ [d])).
  { apply NoDup_app. repeat split; [done| |apply NoDup_singleton].
    intros x Hx ->%list_elem_of_singleton. done. }
  destruct (last wpath) as [w|].
  - split; [done|]. intros d' Hd'. rewrite webroot_setdefault_lookup in Hd'.
    simpl in *. apply elem_of_app.
    destruct (webroot_map n !! d') as [w'|] eqn:Hmap'.
    + left. apply Hkeys. by rewrite Hmap'.
    + destruct (decide (d = d')) as [->|Hne]; [right; by left|].
      by destruct Hd'.
  - split; [done|]. intros d' Hd'. simpl in *. apply elem_of_app. left.
    by apply Hkeys.
Qed.

Lemma process_one_domain_webroot_path wpath piece wp :
  preserves (fun n => webroot_path n = wp) (process_one_domain wpath piece).
Proof.
  intros n Hwp.
  destruct (process_one_domain_store wpath piece n) as [->|(d & Hd & ->)];
    [done|].
  by destruct (last wpath).
Qed.

Lemma process_one_domain_complete wpath piece wp :
  (wp <> [] -> wpath <> []) ->
  preserves (fun n => webroot_path n = wp /\ webroots_complete n)
            (process_one_domain wpath piece).
Proof.
  intros Hwpath n [Hwp Hall].
  destruct (process_one_domain_store wpath piece n) as [->|(d & Hd & ->)];
    [done|].
  destruct (last wpath) as [w|] eqn:Hlast.
  - split; [done|]. intros Hne d' Hd'. rewrite webroot_setdefault_lookup.
    simpl in *.
    destruct (webroot_map n !! d') as [w'|] eqn:Hmap'; [by eexists|].
    destruct (decide (d = d')) as [->|Hned]; [by eexists|].
    apply elem_of_app in Hd' as [Hd'|Hd'%list_elem_of_singleton];
      [|by subst].
    specialize (Hall Hne d' Hd'). rewrite Hmap' in Hall. by destruct Hall.
  - split; [done|]. intros Hne. simpl in Hne.
    apply last_None in Hlast. destruct Hwpath; [by rewrite <- Hwp|done].
Qed.

Lemma process_one_domain_keeps_webroot wpath piece d w :
  preserves (fun n => webroot_map n !! d = Some w)
            (process_one_domain wpath piece).
Proof.
  intros n Hmap.
  destruct (process_one_domain_store wpath piece n) as [->|(d' & Hd' & ->)];
    [done|].
  destruct (last wpath) as [w'|]; [|done].
  rewrite webroot_setdefault_lookup. simpl. by rewrite Hmap.
Qed.

Lemma process_domain_requested domain_arg webroot_path_arg :
  preserves webroots_requested (process_domain domain_arg webroot_path_arg).
Proof.
  unfold Cli.process_domain. apply preserves_get_bind. intros n0 Hn0.
  apply preserves_for_each; [|done]. intros piece.
  apply process_one_domain_requested.
Qed.

Lemma process_domain_keeps_webroot domain_arg webroot_path_arg d w :
  preserves (fun n => webroot_map n !! d = Some w)
            (process_domain domain_arg webroot_path_arg).
Proof.
  unfold Cli.process_domain. apply preserves_get_bind. intros n0 Hn0.
  apply preserves_for_each; [|done]. intros piece.
  apply process_one_domain_keeps_webroot.
Qed.

Lemma process_domain_webroot_path domain_arg webroot_path_arg wp :
  preserves (fun n => webroot_path n = wp)
            (process_domain domain_arg webroot_path_arg).
Proof.
  unfold Cli.process_domain. apply preserves_get_bind. intros n0 Hn0.
  apply preserves_for_each; [|done]. intros piece.
  apply process_one_domain_webroot_path.
Qed.

Lemma process_domain_complete domain_arg webroot_path_arg :
  preserves webroots_complete (process_domain domain_arg webroot_path_arg).
Proof.
  unfold Cli.process_domain. apply preserves_get_bind. intros n0 Hn0.
  assert (Hloop : preserves
            (fun n => webroot_path n = webroot_path n0 /\ webroots_complete n)
            (for_each (strip <$> split "," domain_arg)
               (process_one_domain
                  (effective_webroot_path webroot_path_arg n0)))).
  { apply preserves_for_each. intros piece.
    apply process_one_domain_complete. intros Hne.
    unfold effective_webroot_path.
    by destruct webroot_path_arg as [[|x l]|]. }
  by apply Hloop.
Qed.

Lemma process_domain_consistent domain_arg webroot_path_arg :
  preserves consistent (process_domain domain_arg webroot_path_arg).
Proof.
  intros n [Hreq Hall]. split.
  - by apply process_domain_requested.
  - by apply process_domain_complete.
Qed.

End DomainInvariants.

Section FlagFacts.
Variable enforce_domain_sanity : string -> result string.
Variable get_sans_from_csr : string -> filetype -> result (list string).
Variable json_loads : string -> result (list (string * string)).

Local Abbreviation process_domain := (process_domain enforce_domain_sanity).
Local Abbreviation handle_csr :=
  (handle_csr enforce_domain_sanity get_sans_from_csr).
Local Abbreviation DomainFlagProcessor_call :=
  (DomainFlagProcessor_call enforce_domain_sanity).
Local Abbreviation WebrootMapProcessor_call :=
  (WebrootMapProcessor_call enforce_domain_sanity json_loads).
Local Abbreviation run_flag := (run_flag enforce_domain_sanity json_loads).
Local Abbreviation run_flags := (run_flags enforce_domain_sanity json_loads).


(** The loop of [WebrootPathProcessor] over the domains given before the
    first webroot path: a domain without a webroot gets the path. *)
Lemma setdefault_loop (ds : list string) (webroot : string)
    (s : bool * namespace) :
  exists n',
    for_each ds (fun d =>
      modify (fun s : bool * namespace =>
                (s.1, webroot_setdefault d webroot s.2))) s
    = (Ok tt, (s.1, n'))
    /\ domains n' = domains s.2
    /\ webroot_path n' = webroot_path s.2
    /\ forall d,
         webroot_map n' !! d =
         match webroot_map s.2 !! d with
         | Some w => Some w
         | None => if decide (d ∈ ds) then Some webroot else None
         end.
Proof.
  revert s. induction ds as [|d0 ds IH]; intros [b n]; cbn [for_each fst snd].
  - exists n. repeat split. intros d. destruct (webroot_map n !! d); [done|].
    destruct (decide (d ∈ [])) as [Hin|]; [by apply elem_of_nil in Hin|done].
  - unfold bind, modify. cbn [fst snd].
    destruct (IH (b, webroot_setdefault d0 webroot n))
      as (n' & Hrun & Hdom & Hpath & Hmap). cbn [fst snd] in *.
    exists n'. split; [done|]. split; [done|]. split; [done|].
    intros d. rewrite Hmap, webroot_setdefault_lookup.
    destruct (webroot_map n !! d) as [w|]; [done|].
    destruct (decide (d0 = d)) as [->|Hne].
    + rewrite decide_True; [done|]. by left.
    + destruct (decide (d ∈ ds)) as [Hin|Hnotin].
      * rewrite decide_True; [done|]. by right.
      * rewrite decide_False; [done|].
        intros [Heq|Hin]%elem_of_cons; [by subst|done].
Qed.

(** The first webroot path given after domains: it becomes the webroot of
    every domain that has none, and the action remembers that a domain
    came first. *)
Lemma first_webroot_after_domains webroot (s : bool * namespace) :
  webroot_path s.2 = [] -> domains s.2 <> [] ->
  exists n',
    WebrootPathProcessor_call webroot s = (Ok tt, (true, n'))
    /\ domains n' = domains s.2
    /\ webroot_path n' = [webroot]
    /\ forall d,
         webroot_map n' !! d =
         match webroot_map s.2 !! d with
         | Some w => Some w
         | None => if decide (d ∈ domains s.2) then Some webroot else None
         end.
Proof.
  intros Hpath Hdomains. unfold WebrootPathProcessor_call.
  unfold bind at 1. unfold get at 1. destruct s as [b n]. simpl in *.
  rewrite decide_True by done. rewrite decide_True by done.
  unfold bind at 1. unfold bind at 1. unfold modify at 1. simpl.
  destruct (setdefault_loop (domains n) webroot (true, n))
    as (n' & Hrun & Hdom & Hwp & Hmap). simpl in *.
  rewrite Hrun. unfold modify. simpl.
  exists (append_webroot_path webroot n'). split; [done|]. simpl.
  rewrite Hwp, Hpath. by repeat split.
Qed.

Lemma WebrootPathProcessor_cases webroot (s : bool * namespace) :
  (WebrootPathProcessor_call webroot s).2 = s
  \/ ((webroot_path s.2 = [] -> domains s.2 = [])
      /\ (WebrootPathProcessor_call webroot s).2
         = (s.1, append_webroot_path webroot s.2))
  \/ (webroot_path s.2 = [] /\ domains s.2 <> []).
Proof.
  destruct (decide (webroot_path s.2 = [])) as [Hpath|Hpath];
    [destruct (decide (domains s.2 <> [])) as [Hdom|Hdom]|].
  - right. by right.
  - right. left. split.
    + intros _. by destruct (domains s.2); [|destruct Hdom].
    + unfold WebrootPathProcessor_call, bind, get.
      destruct s as [b n]. simpl in *.
      rewrite decide_True by done. by rewrite decide_False by done.
  - unfold WebrootPathProcessor_call, bind, get.
    destruct s as [b n]. simpl in *. rewrite decide_False by done.
    destruct b; [by left|right; left; by split].
Qed.

Lemma WebrootPathProcessor_consistent webroot :
  preserves (fun s : bool * namespace => consistent s.2)
            (WebrootPathProcessor_call webroot).
Proof.
  intros s [[Hnd Hkeys] Hall].
  destruct (WebrootPathProcessor_cases webroot s)
    as [->|[[Hempty ->]|[Hpath Hdom]]].
  - done.
  - simpl. split; [done|]. intros _ d Hd. simpl in *.
    destruct (decide (webroot_path s.2 = [])) as [Hpath|Hpath].
    + rewrite (Hempty Hpath) in Hd. by apply elem_of_nil in Hd.
    + by apply Hall.
  - destruct (first_webroot_after_domains webroot s Hpath Hdom)
      as (n' & -> & Hdom' & Hwp & Hmap). simpl.
    split; [split|].
    + by rewrite Hdom'.
    + intros d Hd. rewrite Hdom'. rewrite Hmap in Hd.
      destruct (webroot_map s.2 !! d) as [w|] eqn:Hold.
      * apply Hkeys. by rewrite Hold.
      * destruct (decide (d ∈ domains s.2)); [done|by destruct Hd].
    + intros _ d Hd. rewrite Hdom' in Hd. rewrite Hmap.
      destruct (webroot_map s.2 !! d); [by eexists|].
      rewrite decide_True by done. by eexists.
Qed.

Lemma preserves_on_args_snd {A} (P : namespace -> Prop) (m : M namespace A) :
  preserves P m -> preserves (fun s : bool * namespace => P s.2) (on_args m).
Proof.
  intros Hm s Hp. unfold on_args. specialize (Hm s.2 Hp).
  by destruct (m s.2) as [r n].
Qed.

Lemma on_args_fst {A} (m : M namespace A) (s : bool * namespace) :
  (on_args m s).2.1 = s.1.
Proof. unfold on_args. by destruct (m s.2). Qed.

(** An invariant of the namespace that [process_domain] and the two cases
    of [WebrootPathProcessor] keep is kept by the action of every flag. *)
Lemma run_flag_preserves (P : bool * namespace -> Prop) :
  (forall d wp, preserves P (on_args (process_domain d wp))) ->
  (forall webroot, preserves P (WebrootPathProcessor_call webroot)) ->
  forall f, preserves P (run_flag f).
Proof.
  intros Hdomain Hpath [webroot|domain_arg|webroot_map_arg]; simpl.
  - apply Hpath.
  - apply Hdomain.
  - unfold Args.WebrootMapProcessor_call.
    apply preserves_bind; [apply preserves_lift|]. intros items.
    apply preserves_for_each. intros [domains webroot_path]. apply Hdomain.
Qed.

Lemma run_flags_cons f flags (s : bool * namespace) :
  run_flags (f :: flags) s =
  match run_flag f s with
  | (Ok _, s1) => run_flags flags s1
  | (Raise e, s1) => (Raise e, s1)
  end.
Proof. done. Qed.

Lemma run_flags_snoc flags f (s : bool * namespace) :
  run_flags (flags ++ [f]) s =
  match run_flags flags s with
  | (Ok _, s1) =>
      match run_flag f s1 with
      | (Ok _, s2) => (Ok tt, s2)
      | (Raise e, s2) => (Raise e, s2)
      end
  | (Raise e, s1) => (Raise e, s1)
  end.
Proof.
  unfold Args.run_flags. rewrite for_each_app. unfold bind.
  destruct (for_each flags run_flag s) as [[[]|e] s1]; [|done].
  cbn [for_each]. unfold bind, ret.
  by destruct (run_flag f s1) as [[[]|e] s2].
Qed.

(** X8.  The actions of the flags [-d], [-w] and [--webroot-map] keep the
    namespace consistent.  From a namespace in which no domain is
    requested twice, every domain with a webroot is requested, and every
    requested domain has a webroot if a webroot path was given (the
    namespace before any flag is such a one), the namespace after the
    actions of any command line, whether they all return or one of them
    raises, is again such a namespace. *)
Theorem run_flags_consistent (flags : list flag) (s : bool * namespace) :
  consistent s.2 -> consistent (run_flags flags s).2.2.
Proof.
  intros Hs. unfold Args.run_flags.
  apply (preserves_for_each (fun s : bool * namespace => consistent s.2));
    [|done].
  apply run_flag_preserves.
  - intros d wp.
    apply (preserves_on_args_snd consistent), process_domain_consistent.
  - apply WebrootPathProcessor_consistent.
Qed.

Lemma WebrootPathProcessor_keeps_webroot webroot d w :
  preserves (fun s : bool * namespace => webroot_map s.2 !! d = Some w)
            (WebrootPathProcessor_call webroot).
Proof.
  intros s Hmap.
  destruct (WebrootPathProcessor_cases webroot s)
    as [->|[[_ ->]|[Hpath Hdom]]]; [done|done|].
  destruct (first_webroot_after_domains webroot s Hpath Hdom)
    as (n' & -> & _ & _ & Hmap'). simpl. by rewrite Hmap', Hmap.
Qed.

(** X9.  A webroot, once recorded for a domain, is never changed: after
    the actions of any further flags the domain has the same webroot.  In
    particular an entry of [--webroot-map] does not replace the webroot a
    domain got from [-w] and [-d] before it. *)
Theorem run_flags_keep_webroot (flags : list flag) (s : bool * namespace)
    (d w : string) :
  webroot_map s.2 !! d = Some w ->
  webroot_map (run_flags flags s).2.2 !! d = Some w.
Proof.
  intros Hs. unfold Args.run_flags.
  apply (preserves_for_each
           (fun s : bool * namespace => webroot_map s.2 !! d = Some w));
    [|done].
  apply run_flag_preserves.
  - intros d' wp.
    apply (preserves_on_args_snd (fun n => webroot_map n !! d = Some w)).
    apply process_domain_keeps_webroot.
  - intros webroot. apply WebrootPathProcessor_keeps_webroot.
Qed.

Lemma run_flag_domain_before_webroot f :
  preserves (fun s : bool * namespace => s.1 = true /\ webroot_path s.2 <> [])
            (run_flag f).
Proof.
  apply run_flag_preserves.
  - intros d wp s [Hb Hne]. split.
    + by rewrite on_args_fst.
    + pose proof (preserves_on_args_snd
                    (fun n => webroot_path n = webroot_path s.2)
                    (process_domain d wp)
                    (process_domain_webroot_path _ d wp _) s eq_refl) as Heq.
      simpl in Heq. by rewrite Heq.
  - intros webroot [b n] [Hb Hne]. simpl in *. subst b.
    unfold WebrootPathProcessor_call, bind, get. simpl.
    by rewrite decide_False by done.
Qed.

(** X10.  Several webroot paths with a domain before the first of them
    are refused.  When [-w] is given for the first time after a domain,
    every later [-w], whatever flags stand between the two, ends the
    processing with an exception; it is the [Error] of
    [WebrootPathProcessor] when the flags between the two were accepted, and
    the namespace is then left as those flags made it. *)
Theorem second_webroot_path_refused (s : bool * namespace)
    (w1 w2 : string) (flags : list flag) :
  webroot_path s.2 = [] -> domains s.2 <> [] ->
  ~ returns (run_flags (WebrootPathFlag w1 :: flags ++ [WebrootPathFlag w2])
               s).1
  /\ forall s1,
       run_flags (WebrootPathFlag w1 :: flags) s = (Ok tt, s1) ->
       run_flags (WebrootPathFlag w1 :: flags ++ [WebrootPathFlag w2]) s
       = (Raise (Error ("If you specify multiple webroot paths, one of "
                        +:+ "them must precede all domain flags")), s1).
Proof.
  intros Hpath Hdom.
  destruct (first_webroot_after_domains w1 s Hpath Hdom)
    as (n1 & Hfirst & _ & Hwp & _).
  assert (Hq : (true, n1).1 = true /\ webroot_path (true, n1).2 <> []).
  { simpl. by rewrite Hwp. }
  pose proof (preserves_for_each _ flags run_flag
                run_flag_domain_before_webroot (true, n1) Hq) as Hafter.
  rewrite !run_flags_cons. cbn [Args.run_flag]. rewrite Hfirst.
  rewrite run_flags_snoc. unfold Args.run_flags in *.
  destruct (for_each flags run_flag (true, n1)) as [[[]|e] [b n2]] eqn:Hrun;
    simpl in Hafter; destruct Hafter as [-> Hne].
  - assert (Hlast : run_flag (WebrootPathFlag w2) (true, n2)
                    = (Raise (Error ("If you specify multiple webroot paths, "
                                     +:+ "one of them must precede all "
                                     +:+ "domain flags")), (true, n2))).
    { cbn [Args.run_flag].
      unfold WebrootPathProcessor_call, bind, get. simpl.
      by rewrite decide_False by done. }
    rewrite Hlast. split; [by intros []|]. by intros s1 [= <-].
  - split; [by intros []|]. intros s1 [=].
Qed.

(** X11.  "Each domain will have the webroot path that preceded it": the
    action of [-d] for one domain that is new and has no webroot yet, taken
    after at least one [-w], appends the sanitised domain and gives it the
    most recent webroot path. *)
Theorem domain_gets_latest_webroot (s : bool * namespace)
    (domain_arg sane w : string) (ws : list string) :
  webroot_path s.2 = ws ++ [w] ->
  strip <$> split "," domain_arg = [domain_arg] ->
  enforce_domain_sanity domain_arg = Ok sane ->
  sane ∉ domains s.2 ->
  webroot_map s.2 !! sane = None ->
  exists n',
    run_flag (DomainFlag domain_arg) s = (Ok tt, (s.1, n'))
    /\ domains n' = domains s.2 ++ [sane]
    /\ webroot_map n' = <[sane := w]> (webroot_map s.2)
    /\ webroot_path n' = webroot_path s.2.
Proof.
  intros Hwp Hsplit Hsane Hnew Hmap. destruct s as [b n]. simpl in *.
  unfold Args.DomainFlagProcessor_call, on_args. simpl.
  unfold Cli.process_domain, bind, get. rewrite Hsplit. simpl.
  unfold bind, Cli.process_one_domain, bind, lift, get.
  rewrite Hsane. simpl. rewrite decide_False by done.
  unfold modify. simpl. rewrite Hwp, last_snoc. simpl.
  eexists. split; [done|]. simpl. by rewrite Hmap.
Qed.

End FlagFacts.

Lemma run_flags_consistent_witness :
  consistent
    (run_flags sim_enforce_domain_sanity sim_json_loads
       [DomainFlag "eg.is"; WebrootPathFlag "/var/www/eg";
        DomainFlag "www.eg.is,*.eg.is"]
       (initial_args "certonly")).2.2.
Proof.
  apply (run_flags_consistent sim_enforce_domain_sanity sim_json_loads).
  split; [split|]; simpl.
  - apply NoDup_nil_2.
  - intros d [w Hw]. by rewrite lookup_empty in Hw.
  - intros Hne. by destruct Hne.
Defined.

Lemma run_flags_keep_webroot_witness :
  webroot_map
    (run_flags sim_enforce_domain_sanity sim_json_loads
       [WebrootMapFlag "eg.is:/srv/other"]
       (false, Namespace "certonly" ["eg.is"] ["/var/www/eg"]
                         {["eg.is" := "/var/www/eg"]} None None)).2.2
  !! "eg.is" = Some "/var/www/eg".
Proof.
  apply (run_flags_keep_webroot sim_enforce_domain_sanity sim_json_loads).
  reflexivity.
Defined.

Lemma second_webroot_path_refused_witness :
  ~ returns
      (run_flags sim_enforce_domain_sanity sim_json_loads
         (WebrootPathFlag "/var/www/eg"
          :: [DomainFlag "www.eg.is"] ++ [WebrootPathFlag "/var/www/other"])
         (false, Namespace "certonly" ["eg.is"] [] ∅ None None)).1.
Proof.
  apply (second_webroot_path_refused sim_enforce_domain_sanity sim_json_loads
           (false, Namespace "certonly" ["eg.is"] [] ∅ None None)).
  - reflexivity.
  - discriminate.
Defined.

Lemma domain_gets_latest_webroot_witness :
  exists n',
    run_flag sim_enforce_domain_sanity sim_json_loads (DomainFlag "Thing.net")
      (false, Namespace "certonly" ["eg.is"] ["/var/www/eg"; "/var/www/thing"]
                        {["eg.is" := "/var/www/eg"]} None None)
    = (Ok tt, (false, n'))
    /\ domains n' = ["eg.is"; "thing.net"]
    /\ webroot_map n' !! "thing.net" = Some "/var/www/thing".
Proof.
  destruct (domain_gets_latest_webroot sim_enforce_domain_sanity
              sim_json_loads
              (false, Namespace "certonly" ["eg.is"]
                                ["/var/www/eg"; "/var/www/thing"]
                                {["eg.is" := "/var/www/eg"]} None None)
              "Thing.net" "thing.net" "/var/www/thing" ["/var/www/eg"])
    as (n' & Hrun & Hdom & Hmap & _).
  - reflexivity.
  - reflexivity.
  - reflexivity.
  - by_compute.
  - reflexivity.
  - exists n'. split; [exact Hrun|]. split; [exact Hdom|].
    rewrite Hmap. apply lookup_insert_eq.
Defined.

Section ParseArgsFacts.
Variable enforce_domain_sanity : string -> result string.
Variable get_sans_from_csr : string -> filetype -> result (list string).
Variable argparse_parse : list string -> result parsed.
Variable VERBS : gmap string string.
Variable STAGING_URI : string.
Variable default_server : string.
Variable glob_accounts : string -> bool.
Variable dict_keys : gmap string string -> list string.

Local Abbreviation merge_webroot_map_domains :=
  (merge_webroot_map_domains dict_keys).
Local Abbreviation staging_and_dry_run :=
  (staging_and_dry_run STAGING_URI default_server glob_accounts).
Local Abbreviation post_parsing :=
  (post_parsing enforce_domain_sanity get_sans_from_csr STAGING_URI
                default_server glob_accounts dict_keys).
Local Abbreviation parse_args :=
  (parse_args enforce_domain_sanity get_sans_from_csr argparse_parse VERBS
              STAGING_URI default_server glob_accounts dict_keys).

(** The steps of [parse_args] that work on the domains leave the other
    attributes as they are. *)
Lemma on_ns_frame {A B} (m : M namespace A) (f : parsed -> B) :
  (forall n p, f (set_ns n p) = f p) ->
  forall p, f (on_ns m p).2 = f p.
Proof.
  intros Hf p. unfold on_ns. destruct (m (ns p)) as [r n]. apply Hf.
Qed.

Lemma merge_frame {B} (f : parsed -> B) t :
  (forall n p, f (set_ns n p) = f p) ->
  preserves (fun p => f p = t) merge_webroot_map_domains.
Proof.
  intros Hf. unfold Args.merge_webroot_map_domains.
  apply preserves_get_bind. intros p0 Hp0.
  destruct (decide (webroot_map (ns p0) <> ∅)); [|done].
  apply preserves_for_each; [|done]. intros domain.
  apply preserves_get_bind. intros p1 Hp1.
  destruct (decide (domain ∈ domains (ns p1))); [done|].
  by rewrite on_ns_frame.
Qed.

(** What the statement on [--staging] and [--dry-run] leaves when it
    returns. *)
Lemma staging_and_dry_run_returns self verb (p p' : parsed) :
  staging_and_dry_run self verb p = (Ok tt, p') ->
  ns p' = ns p /\ dry_run p' = dry_run p
  /\ (staging p || dry_run p = false -> p' = p)
  /\ (staging p || dry_run p = true ->
      server p' = STAGING_URI
      /\ (detect_defaults self = false ->
          server p ∈ [default_server; STAGING_URI]))
  /\ (dry_run p = true ->
      staging p' = true /\ break_my_certs p' = true
      /\ verb ∈ ["certonly"; "renew"]).
Proof.
  unfold Args.staging_and_dry_run, bind, get, modify, throw, ret.
  destruct (staging p) eqn:Hs, (dry_run p) eqn:Hd; simpl;
    destruct (decide (server p ∉ [default_server; STAGING_URI]))
      as [Hconflict|Hfine];
    try destruct (detect_defaults self) eqn:Hdd; simpl;
    try destruct (decide (verb ∉ ["certonly"; "renew"])) as [Hverb|Hverb];
    simpl;
    try destruct (glob_accounts (config_dir p)); simpl;
    intros Hrun; simplify_eq/=;
    repeat split; simpl; try done;
    try (intros _; by apply dec_stable);
    try (by apply dec_stable).
Qed.

(** X6.  A dry run or a staging run never talks to another server.  When
    [parse_args] returns: with [--staging] or [--dry-run] the server is the
    staging server, and unless defaults are being detected the server
    given was the default one or the staging one; with [--dry-run] the verb
    is [certonly] or [renew], and [staging] and [break_my_certs] are set. *)
Theorem parse_args_staging (self : arg_parser) (p0 p : parsed) :
  argparse_parse (args (ap_parser self)) = Ok p0 ->
  parse_args self = Returned p ->
  dry_run p = dry_run p0
  /\ (staging p0 || dry_run p0 = true ->
      server p = STAGING_URI
      /\ (detect_defaults self = false ->
          server p0 ∈ [default_server; STAGING_URI]))
  /\ (dry_run p0 = true ->
      staging p = true /\ break_my_certs p = true
      /\ (verb (ap_parser self) = Some "certonly"
          \/ verb (ap_parser self) = Some "renew")).
Proof.
  intros Hparse. unfold Args.parse_args. rewrite Hparse.
  destruct (verb (ap_parser self)) as [v|]; [|discriminate].
  destruct (VERBS !! v) as [handler|]; [|discriminate].
  set (p1 := set_ns (set_verb v (ns p0)) (set_func handler p0)).
  destruct (post_parsing self v p1) as [[[]|e] p2] eqn:Hpost; [|discriminate].
  intros [= <-]. unfold Args.post_parsing in Hpost.
  apply bind_ok_inv in Hpost as ([] & pa & Hmerge & Hpost).
  apply bind_ok_inv in Hpost as ([] & pb & Hstaging & Hpost).
  apply bind_ok_inv in Hpost as (pb' & pb'' & Hget & Hpost).
  unfold get in Hget. injection Hget as <- <-.
  apply bind_ok_inv in Hpost as ([] & pc & Hcsr & Hpost).
  pose (flags := fun q : parsed =>
                   (staging q, dry_run q, server q, break_my_certs q)).
  assert (Hframe : forall n q, flags (set_ns n q) = flags q) by done.
  assert (Ha : flags pa = flags p0).
  { pose proof (merge_frame flags (flags p0) Hframe p1 eq_refl) as Hm.
    by rewrite Hmerge in Hm. }
  assert (Hc : flags pc = flags pb).
  { destruct (decide (csr (ns pb) <> None)).
    - pose proof (on_ns_frame
                    (handle_csr enforce_domain_sanity get_sans_from_csr)
                    flags Hframe pb) as Hh.
      by rewrite Hcsr in Hh.
    - unfold ret in Hcsr. by injection Hcsr as <-. }
  assert (Hp : flags p2 = flags pc).
  { destruct (detect_defaults self).
    - unfold modify in Hpost. by injection Hpost as <-.
    - unfold ret in Hpost. by injection Hpost as <-. }
  destruct (staging_and_dry_run_returns self v pa pb Hstaging)
    as (_ & Hdry & _ & Hserver & Hdryrun).
  assert (Ha' : staging pa = staging p0 /\ dry_run pa = dry_run p0
                /\ server pa = server p0).
  { unfold flags in Ha. by simplify_eq. }
  assert (Hc' : staging p2 = staging pb /\ dry_run p2 = dry_run pb
                /\ server p2 = server pb
                /\ break_my_certs p2 = break_my_certs pb).
  { unfold flags in Hc, Hp. rewrite Hc in Hp. by simplify_eq. }
  destruct Ha' as (Hs0 & Hd0 & Hv0).
  destruct Hc' as (Hs2 & Hd2 & Hv2 & Hb2).
  rewrite Hs0, Hd0, Hv0 in *. rewrite Hs2, Hd2, Hv2, Hb2.
  split; [done|]. split; [done|].
  intros Hon. destruct (Hdryrun Hon) as (Hs & Hb & Hv).
  split; [done|]. split; [done|].
  apply elem_of_cons in Hv as [->|Hv]; [by left|].
  apply list_elem_of_singleton in Hv as ->. by right.
Qed.



End ParseArgsFacts.

Lemma parse_args_staging_witness :
  exists p,
    parse_args sim_enforce_domain_sanity sim_get_sans_from_csr
               (sim_argparse false true "https://acme-v01.api.letsencrypt.org")
               sim_VERBS "https://acme-staging.api.letsencrypt.org"
               "https://acme-v01.api.letsencrypt.org" (fun _ => false)
               sim_dict_keys
               (ArgParser (Parser ["--dry-run"] (Some "certonly")) false [])
    = Returned p
    /\ server p = "https://acme-staging.api.letsencrypt.org"
    /\ staging p = true.
Proof.
  eexists. split; [reflexivity|].
  match goal with
  | |- server ?p = _ /\ _ =>
      destruct (parse_args_staging
                  sim_enforce_domain_sanity sim_get_sans_from_csr
                  (sim_argparse false true
                                "https://acme-v01.api.letsencrypt.org")
                  sim_VERBS "https://acme-staging.api.letsencrypt.org"
                  "https://acme-v01.api.letsencrypt.org" (fun _ => false)
                  sim_dict_keys
                  (ArgParser (Parser ["--dry-run"] (Some "certonly")) false [])
                  _ p eq_refl eq_refl)
        as (_ & Hserver & Hdry)
  end.
  split.
  - by apply Hserver.
  - by apply Hdry.
Defined.


End ArgsFacts.

(** ** [letsencrypt/plugins/manual.py]: the plugin across its calls *)

Module ManualRunFacts.
Import Py Manual ManualInit PyFacts.

Section RunFacts.
Context {W : Type} `{System W}.

Local Abbreviation warning :=
  (WARNING, "Self-verify of challenge failed.").

(** One challenge: the plugin is left as it was, and the log gets at most
    the warning of the self-verification. *)
Lemma _perform_single_frame achall (s : store W) :
  self (_perform_single achall s).2 = self s
  /\ exists n, (n <= 1)%nat
               /\ log (_perform_single achall s).2
                  = log s ++ replicate n warning.
Proof.
  assert (Hnone : forall s' : store W,
             self s' = self s -> log s' = log s ->
             self s' = self s
             /\ exists n, (n <= 1)%nat
                          /\ log s' = log s ++ replicate n warning).
  { intros s' Hself Hlog. split; [done|]. exists 0%nat. split; [lia|].
    simpl. by rewrite app_nil_r. }
  unfold _perform_single.
  destruct (response_and_validation achall) as [response validation].
  destruct (split "." validation) as [|target_name [|x [|y rest]]];
    try (by apply Hnone).
  unfold bind, get, sys, logger, modify, ret.
  destruct (negb (path_exists _ (world s))); simpl;
    repeat match goal with
           | |- context [match ?op (world s) with _ => _ end] =>
               destruct (op (world s)) as [[[]|?] ?]; simpl
           | |- context [match write_file ?p ?v ?w with _ => _ end] =>
               destruct (write_file p v w) as [[[]|?] ?]; simpl
           | |- context [match simple_verify ?r ?a ?p ?w with _ => _ end] =>
               destruct (simple_verify r a p w) as [[[]|?] ?]; simpl
           end;
    try (by apply Hnone);
    (split; [done|]; exists 1%nat; split; [lia|done]).
Qed.

(** X12.  [perform] never touches the plugin object: after it, whether
    it returned or raised, [self] is as before (so [_httpd] is still what
    it was) and the log is the log before followed by warnings of failed
    self-verifications, at most one for each challenge. *)
Theorem perform_frame (achalls : list AnnotatedChallenge) (s : store W) :
  self (perform achalls s).2 = self s
  /\ exists n, (n <= length achalls)%nat
               /\ log (perform achalls s).2 = log s ++ replicate n warning.
Proof.
  unfold perform. generalize (@nil Response).
  revert s. induction achalls as [|achall achalls IH]; intros s responses.
  - simpl. split; [done|]. exists 0%nat. split; [lia|].
    simpl. by rewrite app_nil_r.
  - cbn [perform_loop]. unfold bind.
    destruct (_perform_single_frame achall s) as (Hself & n1 & Hn1 & Hlog).
    destruct (_perform_single achall s) as [[response|e] s1]; simpl in *.
    + destruct (IH s1 (responses ++ [response])) as (Hself' & n & Hn & Hlog').
      split; [congruence|]. exists (n1 + n)%nat. split; [lia|].
      rewrite Hlog', Hlog, replicate_add. by rewrite app_assoc.
    + split; [done|]. exists n1. split; [lia|done].
Qed.

(** X13.  A plugin built by [__init__] in test mode cannot be cleaned up:
    [__init__] sets [_httpd] to [None] and [perform] leaves it so; hence,
    after any [perform], [cleanup] raises [AssertionError], for every list
    of challenges. *)
Theorem cleanup_after_init_raises (mkdtemp : M W string) (cfg : Config)
    (w w' : W) (plugin : Authenticator) (records : list (level * string))
    (performed cleaned : list AnnotatedChallenge) :
  manual_test_mode cfg = true ->
  init mkdtemp cfg w = (Ok plugin, w') ->
  exists msg,
    (cleanup cleaned (perform performed (Store plugin w' records)).2).1
    = Raise (AssertionError msg).
Proof.
  intros Hmode Hinit.
  assert (Hplugin : config plugin = cfg /\ _httpd plugin = None).
  { unfold init in Hinit. rewrite Hmode in Hinit.
    apply bind_ok_inv in Hinit as (root & w1 & _ & Hret).
    unfold ret in Hret. by injection Hret as <- _. }
  destruct Hplugin as [Hcfg Hhttpd].
  destruct (perform_frame performed (Store plugin w' records)) as [Hself _].
  simpl in Hself. unfold cleanup, bind, get.
  rewrite Hself, Hcfg, Hmode, Hhttpd. by eexists.
Qed.

Lemma perform_loop_app l1 l2 responses (s : store W) :
  perform_loop (l1 ++ l2) responses s =
  match perform_loop l1 responses s with
  | (Ok rs, s1) => perform_loop l2 rs s1
  | (Raise e, s1) => (Raise e, s1)
  end.
Proof.
  revert responses s. induction l1 as [|a l1 IH]; intros responses s.
  - done.
  - cbn [app perform_loop]. unfold bind.
    destruct (_perform_single a s) as [[r|e] s1]; [|done]. apply IH.
Qed.

Lemma perform_loop_prefix l responses (s : store W) :
  perform_loop l responses s =
  match perform_loop l [] s with
  | (Ok rs, s1) => (Ok (responses ++ rs), s1)
  | (Raise e, s1) => (Raise e, s1)
  end.
Proof.
  revert responses s. induction l as [|a l IH]; intros responses s.
  - simpl. unfold ret. by rewrite app_nil_r.
  - cbn [perform_loop]. unfold bind.
    destruct (_perform_single a s) as [[r|e] s1]; [|done].
    rewrite (IH (responses ++ [r])), (IH ([] ++ [r])).
    destruct (perform_loop l [] s1) as [[rs|e] s2]; [|done].
    by rewrite <- app_assoc.
Qed.

(** X14.  [perform] on two batches one after the other is [perform] on
    the batches joined: the responses are joined in order, and an exception
    in the first batch leaves the second unperformed. *)
Theorem perform_app (l1 l2 : list AnnotatedChallenge) (s : store W) :
  perform (l1 ++ l2) s =
  match perform l1 s with
  | (Ok rs1, s1) =>
      match perform l2 s1 with
      | (Ok rs2, s2) => (Ok (rs1 ++ rs2), s2)
      | (Raise e, s2) => (Raise e, s2)
      end
  | (Raise e, s1) => (Raise e, s1)
  end.
Proof.
  unfold perform. rewrite perform_loop_app.
  destruct (perform_loop l1 [] s) as [[rs1|e] s1]; [|done].
  apply perform_loop_prefix.
Qed.

End RunFacts.

Lemma cleanup_after_init_raises_witness :
  exists msg,
    (cleanup [sim_achall]
       (perform [sim_achall; sim_achall2]
          (Store (MkAuthenticator (MkConfig false 80 true) "/tmp/tmpXq3k" None)
                 (SimWorld {["/tmp/tmpXq3k"]} ∅ "/root" ∅ true) [])).2).1
    = Raise (AssertionError msg).
Proof.
  apply (cleanup_after_init_raises sim_mkdtemp (MkConfig false 80 true)
           (sim_empty_world true)).
  - reflexivity.
  - by vm_compute.
Defined.

End ManualRunFacts.

(** ** [client-webserver/sni_challenge.py]: the helpers and the runs *)

Module SniRunFacts.
Import Py Sni Inv PyFacts SniFacts.

Lemma hex_byte_digits c : all_chars is_hex_digit (hex_byte c) = true.
Proof. destruct c as [[] [] [] [] [] [] [] []]; by vm_compute. Qed.

Lemma hex_byte_not_space c :
  all_chars (fun x => negb (Ascii.is_space x)) (hex_byte c) = true.
Proof. destruct c as [[] [] [] [] [] [] [] []]; by vm_compute. Qed.

Lemma unhex_hex_byte c rest :
  unhex (hex_byte c +:+ rest) = String c (unhex rest).
Proof. destruct c as [[] [] [] [] [] [] [] []]; reflexivity. Qed.

Lemma all_chars_app p s1 s2 :
  all_chars p (s1 +:+ s2) = all_chars p s1 && all_chars p s2.
Proof.
  induction s1 as [|c s1 IH]; simpl; [done|].
  rewrite IH. by rewrite andb_assoc.
Qed.

Lemma all_chars_rev_app p s1 s2 :
  all_chars p (String.rev_app s1 s2) = all_chars p s1 && all_chars p s2.
Proof.
  revert s2. induction s1 as [|c s1 IH]; intros s2; simpl; [done|].
  rewrite IH. simpl. destruct (p c), (all_chars p s1); simpl; try done.
Qed.

Lemma rev_app_rev_app s1 s2 s3 :
  String.rev_app (String.rev_app s1 s2) s3
  = String.rev_app s2 (s1 +:+ s3).
Proof.
  revert s2 s3. induction s1 as [|c s1 IH]; intros s2 s3; simpl; [done|].
  by rewrite IH.
Qed.

Lemma string_app_empty_r s : s +:+ "" = s.
Proof.
  induction s as [|c s IH]; [done|].
  change (String c s +:+ "") with (String c (s +:+ "")). by rewrite IH.
Qed.

Lemma string_rev_involutive s : String.rev (String.rev s) = s.
Proof.
  unfold String.rev. rewrite rev_app_rev_app. cbn [String.rev_app].
  apply string_app_empty_r.
Qed.

Lemma lstrip_no_space s :
  all_chars (fun x => negb (Ascii.is_space x)) s = true -> lstrip s = s.
Proof.
  destruct s as [|c s]; simpl; [done|].
  destruct (Ascii.is_space c); [discriminate|done].
Qed.

(** A string without white space is left as it is by [strip]. *)
Lemma strip_no_space s :
  all_chars (fun x => negb (Ascii.is_space x)) s = true -> strip s = s.
Proof.
  intros Hs. unfold strip. rewrite (lstrip_no_space s Hs).
  rewrite lstrip_no_space; [apply string_rev_involutive|].
  unfold String.rev. rewrite all_chars_rev_app, Hs. done.
Qed.

Lemma hex_bytes_not_space s :
  all_chars (fun x => negb (Ascii.is_space x)) (hex_bytes s) = true.
Proof.
  induction s as [|c s IH]; [done|]. cbn [hex_bytes].
  by rewrite all_chars_app, hex_byte_not_space, IH.
Qed.

Lemma string_length_app p q :
  String.length (p +:+ q) = (String.length p + String.length q)%nat.
Proof.
  induction p as [|c p IH]; [done|].
  change (String c p +:+ q) with (String c (p +:+ q)).
  cbn [String.length]. by rewrite IH.
Qed.

Lemma byteToHex_hex_bytes s : byteToHex s = hex_bytes s.
Proof. unfold byteToHex. apply strip_no_space, hex_bytes_not_space. Qed.

(** X15.  [byteToHex] writes every byte as two upper-case hexadecimal
    digits and loses nothing: the result is twice as long as the byte
    string, holds hexadecimal digits only, and reading the digits back two
    by two gives the byte string again; so two byte strings with the same
    result are the same. *)
Theorem byteToHex_round_trip (byteStr : string) :
  String.length (byteToHex byteStr) = (2 * String.length byteStr)%nat
  /\ all_chars is_hex_digit (byteToHex byteStr) = true
  /\ unhex (byteToHex byteStr) = byteStr
  /\ forall other, byteToHex other = byteToHex byteStr -> other = byteStr.
Proof.
  assert (Hunhex : forall s, unhex (byteToHex s) = s).
  { intros s. rewrite byteToHex_hex_bytes.
    induction s as [|c s IH]; [done|].
    cbn [hex_bytes]. by rewrite unhex_hex_byte, IH. }
  rewrite byteToHex_hex_bytes. repeat split.
  - induction byteStr as [|c s IH]; [done|].
    cbn [hex_bytes]. rewrite string_length_app, IH.
    cbn [hex_byte String.length]. lia.
  - induction byteStr as [|c s IH]; [done|].
    cbn [hex_bytes]. by rewrite all_chars_app, hex_byte_digits, IH.
  - rewrite <- byteToHex_hex_bytes. apply Hunhex.
  - intros other Heq. rewrite <- byteToHex_hex_bytes in Heq.
    by rewrite <- (Hunhex other), Heq, Hunhex.
Qed.

Lemma rewrite_extension_map oid value lines :
  rewrite_extension oid value lines =
  ((fun line =>
      if contains "=critical, DER:" line
      then oid +:+ "=critical, DER:" +:+ value +:+ newline
      else line) <$> lines,
   existsb (contains "=critical, DER:") lines).
Proof.
  induction lines as [|line lines IH]; [done|].
  cbn [rewrite_extension]. rewrite IH. rewrite fmap_cons. cbn [existsb].
  by destruct (contains "=critical, DER:" line).
Qed.

(** X16.  The loop of [updateCertConf] replaces every line that holds
    [=critical, DER:], not the first one only, by the line of the new
    extension and copies the other lines; the flag says whether a line was
    replaced. *)
Theorem rewrite_extension_spec (oid value : string) (lines : list string) :
  let out := (rewrite_extension oid value lines).1 in
  let flag := (rewrite_extension oid value lines).2 in
  length out = length lines
  /\ (flag = true <->
      exists line, line ∈ lines /\ contains "=critical, DER:" line = true)
  /\ forall i line,
       lines !! i = Some line ->
       out !! i =
       Some (if contains "=critical, DER:" line
             then oid +:+ "=critical, DER:" +:+ value +:+ newline
             else line).
Proof.
  rewrite rewrite_extension_map. cbn [fst snd]. repeat split.
  - by rewrite length_fmap.
  - intros Hflag. apply existsb_exists in Hflag as (line & Hin & Hline).
    exists line. split; [by apply list_elem_of_In|done].
  - intros (line & Hin & Hline). apply existsb_exists.
    exists line. split; [by apply list_elem_of_In|done].
  - intros i line Hi. by rewrite list_lookup_fmap, Hi.
Qed.

Lemma drop_last_app p q :
  String.substring 0 (String.length p) (p +:+ q) = p.
Proof.
  induction p as [|c p IH]; simpl.
  - by destruct q.
  - by rewrite IH.
Qed.

Section RunFacts.
Context {W : Type} `{Environment W}.

Lemma call_trace {A} ev (op : M W A) (s : store W) :
  trace (call ev op s).2 = trace s ++ [ev]
  /\ stdout (call ev op s).2 = stdout s.
Proof. unfold call. by destruct (op (world s)). Qed.

Lemma call_ok {A} ev (op : M W A) (s s1 : store W) a :
  call ev op s = (Ok a, s1) ->
  trace s1 = trace s ++ [ev] /\ stdout s1 = stdout s
  /\ op (world s) = (Ok a, world s1).
Proof.
  unfold call. destruct (op (world s)) as [r w]. by intros [= -> <-].
Qed.

(** A loop of calls, each made with one element of a list: when the
    operations succeed on the world, the loop returns and has recorded one
    call for each element, in the order of the list. *)
Lemma for_each_call {A} (mk : A -> event) (op : A -> M W unit)
    (l : list A) (s : store W) (w' : W) :
  for_each l op (world s) = (Ok tt, w') ->
  for_each l (fun x => call (mk x) (op x)) s =
  (Ok tt, Store w' (trace s ++ (mk <$> l)) (stdout s)).
Proof.
  revert s. induction l as [|x l IH]; intros s; cbn [for_each].
  - unfold ret. intros [= <-]. rewrite app_nil_r. by destruct s.
  - unfold bind at 1 2. unfold call at 1.
    destruct (op x (world s)) as [[[]|e] w1]; [|done].
    intros Hrest. rewrite (IH (Store w1 (trace s ++ [mk x]) (stdout s)) Hrest).
    cbn [trace stdout]. by rewrite fmap_cons, <- app_assoc.
Qed.

(** X17.  [updateCertConf] on a configuration without an extension line:
    when no line of the file holds [=critical, DER:], the call ends with
    [SystemExit] after the message was printed.  By then it has opened the
    two files, read the lines and handed each of them, unchanged, to
    [write] on the temporary file; it has closed neither file, and the
    configuration file itself was neither removed nor replaced. *)
Theorem updateCertConf_without_extension (oid value : string)
    (s : store W) (lines : list string) (w1 w2 w3 w4 : W) :
  let tmp := CHOC_CERT_CONF +:+ ".tmp" in
  open_file CHOC_CERT_CONF "r" (world s) = (Ok tt, w1) ->
  open_file tmp "w" w1 = (Ok tt, w2) ->
  read_lines CHOC_CERT_CONF w2 = (Ok lines, w3) ->
  (forall line, line ∈ lines -> contains "=critical, DER:" line = false) ->
  for_each lines (write tmp) w3 = (Ok tt, w4) ->
  updateCertConf oid value s =
  (Raise SystemExit,
   Store w4
         (trace s ++ [FileOpen CHOC_CERT_CONF "r"; FileOpen tmp "w";
                      FileRead CHOC_CERT_CONF]
          ++ (FileObjectWrite tmp <$> lines))
         (stdout s
          ++ ["Error: Could not find extension in CHOC_CERT_CONF"])).
Proof.
  intros tmp Hold Hnew Hread Hnone Hwrite.
  assert (Hsame : rewrite_extension oid value lines = (lines, false)).
  { rewrite rewrite_extension_map. f_equal.
    - clear Hread Hwrite. induction lines as [|line lines IH]; [done|].
      rewrite fmap_cons, Hnone by (by left). f_equal.
      apply IH. intros l Hl. apply Hnone. by right.
    - apply not_true_is_false. intros (line & Hin & Hline)%existsb_exists.
      rewrite Hnone in Hline; [done|by apply list_elem_of_In]. }
  unfold updateCertConf. fold tmp.
  unfold bind at 1. unfold call at 1. rewrite Hold.
  unfold bind at 1. unfold call at 1. cbn [world]. rewrite Hnew.
  unfold bind at 1. unfold call at 1. cbn [world]. rewrite Hread.
  rewrite Hsame. unfold bind at 1.
  rewrite (for_each_call (FileObjectWrite tmp) (write tmp) lines _ w4)
    by exact Hwrite.
  cbn [negb]. unfold bind, print, modify, throw. cbn [trace stdout world].
  by rewrite <- !app_assoc.
Qed.

(** X18.  [findApacheConfigFile] gives the output of [find] without its
    last character whenever the command succeeds, also when it printed
    nothing, which is what [find] does when there is no [httpd.conf]: the
    result is then the empty path, not [None]. *)
Theorem findApacheConfigFile_output (s : store W) (out : string) (w1 : W) :
  let argv := ["sudo"; "find"; "/etc"; "-name"; "httpd.conf"] in
  subprocess_check_output argv (world s) = (Ok (Some out), w1) ->
  findApacheConfigFile s =
  (Ok (Some (drop_last out)),
   Store w1 (trace s ++ [SubprocessCheckOutput argv])
         (stdout s ++ ["Apache Config:  " +:+ drop_last out]))
  /\ (forall p c, out = p +:+ String c "" -> drop_last out = p)
  /\ (out = "" -> drop_last out = "").
Proof.
  intros argv Hout. split; [|split].
  - unfold findApacheConfigFile. fold argv. unfold bind at 1.
    unfold call at 1. rewrite Hout.
    by unfold bind, print, modify, ret.
  - intros p c ->. unfold drop_last. rewrite string_length_app.
    cbn [String.length]. replace (String.length p + 1 - 1)%nat
      with (String.length p) by lia.
    apply drop_last_app.
  - by intros ->.
Qed.

Lemma findApacheConfigFile_trace (s : store W) :
  trace (findApacheConfigFile s).2
  = trace s ++ [SubprocessCheckOutput
                  ["sudo"; "find"; "/etc"; "-name"; "httpd.conf"]].
Proof.
  unfold findApacheConfigFile, bind, call, print, modify, ret.
  by destruct (subprocess_check_output _ (world s)) as [[[out|]|e] w1].
Qed.

Lemma perform_empty_run csr key (s : store W) :
  perform_sni_cert_challenge [] csr key s =
  match call checkpoint (save "Before performing sni_challenge" None) s with
  | (Ok _, s1) =>
      match findApacheConfigFile s1 with
      | (Ok _, s2) => (Raise (UnboundLocalError "tup"), s2)
      | (Raise e, s2) => (Raise e, s2)
      end
  | (Raise e, s1) => (Raise e, s1)
  end.
Proof.
  unfold perform_sni_cert_challenge. cbn [collect_addresses for_each last].
  unfold bind, ret, throw. fold checkpoint.
  destruct (call checkpoint _ s) as [[[]|e] s1]; [|done].
  by destruct (findApacheConfigFile s1) as [[mainConfig|e] s2].
Qed.

(** X19.  [perform_sni_cert_challenge] on an empty list of challenges never
    returns: the checkpoint is saved, the configuration file is looked
    for, and the call ends with an exception ([tup] is not bound when
    [modifyApacheConfig] is to be called); nothing more was called. *)
Theorem perform_empty_list (csr key : string) (s : store W) :
  let run := perform_sni_cert_challenge [] csr key s in
  ~ returns run.1
  /\ (exists calls,
        trace run.2 = trace s ++ calls
        /\ calls `prefix_of`
           [checkpoint;
            SubprocessCheckOutput
              ["sudo"; "find"; "/etc"; "-name"; "httpd.conf"]])
  /\ (forall w1 out w2,
        save "Before performing sni_challenge" None (world s) = (Ok tt, w1) ->
        subprocess_check_output
          ["sudo"; "find"; "/etc"; "-name"; "httpd.conf"] w1 = (Ok out, w2) ->
        run.1 = Raise (UnboundLocalError "tup")).
Proof.
  cbv zeta. rewrite perform_empty_run.
  pose proof (call_trace checkpoint
                (save "Before performing sni_challenge" None) s)
    as [Hsave _].
  destruct (call checkpoint _ s) as [[[]|e] s1] eqn:Hcall; cbn [fst snd] in *.
  - pose proof (findApacheConfigFile_trace s1) as Hfind.
    destruct (findApacheConfigFile s1) as [[mainConfig|e] s2] eqn:Hrun;
      cbn [fst snd] in *.
    + split; [by intros []|]. split.
      * exists [checkpoint;
                SubprocessCheckOutput
                  ["sudo"; "find"; "/etc"; "-name"; "httpd.conf"]].
        split; [by rewrite Hfind, Hsave, <- app_assoc|]. done.
      * done.
    + split; [by intros []|]. split.
      * exists [checkpoint;
                SubprocessCheckOutput
                  ["sudo"; "find"; "/etc"; "-name"; "httpd.conf"]].
        split; [by rewrite Hfind, Hsave, <- app_assoc|]. done.
      * intros w1 out w2 Hs Hout. exfalso.
        unfold call in Hcall. rewrite Hs in Hcall. injection Hcall as <-.
        unfold findApacheConfigFile, bind, call, print, modify, ret in Hrun.
        cbn [world] in Hrun. rewrite Hout in Hrun. by destruct out.
  - split; [by intros []|]. split.
    + exists [checkpoint]. split; [done|]. by eexists.
    + intros w1 out w2 Hs Hout. exfalso.
      unfold call in Hcall. by rewrite Hs in Hcall.
Qed.

Lemma collect_addresses_calls default_addr listSNITuple addresses
    (s : store W) :
  exists calls,
    trace (collect_addresses default_addr listSNITuple addresses s).2
    = trace s ++ calls
    /\ Forall (fun ev => vhost_call ev = true) calls.
Proof.
  revert addresses s.
  induction listSNITuple as [|tup rest IH]; intros addresses s.
  - exists []. split; [by rewrite app_nil_r|done].
  - cbn [collect_addresses]. unfold bind at 1.
    pose proof (call_trace (CfgChooseVirtualHost (tup0 tup))
                  (choose_virtual_host (tup0 tup)) s) as [Hchoose _].
    destruct (call (CfgChooseVirtualHost (tup0 tup)) _ s)
      as [[[vhost|]|e] s1]; cbn [fst snd] in *.
    + unfold bind at 1.
      pose proof (call_trace (CfgMakeServerSniReady vhost default_addr)
                    (make_server_sni_ready vhost default_addr) s1)
        as [Hready _].
      destruct (call (CfgMakeServerSniReady vhost default_addr) _ s1)
        as [[[]|e] s2]; cbn [fst snd negb] in *.
      * destruct (IH (addresses ++ [challenge_addrs default_addr vhost]) s2)
          as (calls & Hcalls & Hall).
        exists (CfgChooseVirtualHost (tup0 tup)
                :: CfgMakeServerSniReady vhost default_addr :: calls).
        split; [|by repeat constructor].
        rewrite Hcalls, Hready, Hchoose. by rewrite <- !app_assoc.
      * exists [CfgChooseVirtualHost (tup0 tup);
                CfgMakeServerSniReady vhost default_addr].
        split; [|by repeat constructor].
        unfold ret. cbn [snd]. rewrite Hready, Hchoose.
        by rewrite <- app_assoc.
      * exists [CfgChooseVirtualHost (tup0 tup);
                CfgMakeServerSniReady vhost default_addr].
        split; [|by repeat constructor].
        rewrite Hready, Hchoose. by rewrite <- app_assoc.
    + exists [CfgChooseVirtualHost (tup0 tup)].
      split; [|by repeat constructor].
      unfold bind, print, modify, ret. cbn [snd trace]. done.
    + exists [CfgChooseVirtualHost (tup0 tup)].
      split; [done|by repeat constructor].
Qed.

Lemma collect_addresses_length default_addr listSNITuple addresses
    (s s' : store W) result :
  collect_addresses default_addr listSNITuple addresses s
  = (Ok (Some result), s') ->
  length result = (length addresses + length listSNITuple)%nat.
Proof.
  revert addresses s.
  induction listSNITuple as [|tup rest IH]; intros addresses s.
  - cbn [collect_addresses]. unfold ret. intros [= <- _]. simpl. lia.
  - cbn [collect_addresses]. intros Hrun.
    apply bind_ok_inv in Hrun as ([vhost|] & s1 & _ & Hrun).
    + apply bind_ok_inv in Hrun as ([] & s2 & _ & Hrun); cbn [negb] in Hrun.
      * apply IH in Hrun. rewrite length_app in Hrun. simpl in *. lia.
      * unfold ret in Hrun. discriminate.
    + apply bind_ok_inv in Hrun as (? & ? & _ & Hrun).
      apply bind_ok_inv in Hrun as (? & ? & _ & Hrun).
      apply bind_ok_inv in Hrun as (? & ? & _ & Hrun).
      unfold ret in Hrun. discriminate.
Qed.

(** The part of [perform_sni_cert_challenge] after the first loop, when
    the loop has given the address lists. *)
Lemma perform_tail_returns listSNITuple csr key addresses
    (s1 s' : store W) (r : returned) :
  (for_each listSNITuple (fun tup =>
     let! ext := generateExtension key (tup1 tup) in
     createChallengeCert (tup3 tup) ext (tup2 tup) csr key) >>>
   let! mainConfig := findApacheConfigFile in
   match last listSNITuple with
   | None => throw (UnboundLocalError "tup")
   | Some tup =>
       modifyApacheConfig mainConfig (tup2 tup) addresses key >>>
       call (CfgSave "SNI Challenge" (Some true))
            (save "SNI Challenge" (Some true)) >>>
       apache_restart >>>
       ret ReturnedNone
   end) s1 = (Ok r, s') ->
  r = ReturnedNone
  /\ exists tup calls,
       last listSNITuple = Some tup
       /\ trace s' =
          trace s1 ++ calls
          ++ [FileWrite APACHE_CHALLENGE_CONF
                (challenge_config_text (tup2 tup) addresses key);
              CfgSave "SNI Challenge" (Some true);
              SubprocessCall ["sudo"; "/etc/init.d/apache2"; "reload"]].
Proof.
  intros Hrun.
  apply bind_ok_inv in Hrun as ([] & s2 & Hcerts & Hrun).
  apply bind_ok_inv in Hrun as (mainConfig & s3 & Hfind & Hrun).
  destruct (last listSNITuple) as [tup|]; [|discriminate].
  apply bind_ok_inv in Hrun as ([] & s4 & Hmodify & Hrun).
  apply bind_ok_inv in Hrun as ([] & s5 & Hsave & Hrun).
  apply bind_ok_inv in Hrun as ([] & s6 & Hrestart & Hrun).
  unfold ret in Hrun. injection Hrun as <- <-. split; [done|].
  assert (Hc2 : exists calls, trace s2 = trace s1 ++ calls).
  { assert (Hext : extends (for_each listSNITuple (fun tup =>
       let! ext := generateExtension key (tup1 tup) in
       createChallengeCert (tup3 tup) ext (tup2 tup) csr key))).
    { apply extends_for_each. intros t.
      apply extends_bind; [apply extends_generateExtension|].
      intros ext. apply extends_createChallengeCert. }
    destruct (Hext s1) as [calls Hcalls]. rewrite Hcerts in Hcalls.
    by exists calls. }
  destruct Hc2 as [c2 Hc2].
  pose proof (findApacheConfigFile_trace s2) as Hc3.
  rewrite Hfind in Hc3. cbn [snd] in Hc3.
  unfold modifyApacheConfig in Hmodify.
  apply bind_ok_inv in Hmodify as ([] & s3' & Hinclude & Hwrite).
  destruct (extends_checkForApacheConfInclude mainConfig s3) as [c4 Hc4].
  rewrite Hinclude in Hc4. cbn [snd] in Hc4.
  apply call_ok in Hwrite as (Hw & _).
  apply call_ok in Hsave as (Hsv & _).
  unfold apache_restart in Hrestart.
  apply bind_ok_inv in Hrestart as (status & s5' & Hreload & Hret).
  unfold ret in Hret. injection Hret as <-.
  apply call_ok in Hreload as (Hrl & _).
  exists tup,
    (c2 ++ [SubprocessCheckOutput
              ["sudo"; "find"; "/etc"; "-name"; "httpd.conf"]] ++ c4).
  split; [reflexivity|].
  rewrite Hrl, Hsv, Hw, Hc4, Hc3, Hc2. rewrite <- !app_assoc. reflexivity.
Qed.

(** X20.  [perform_sni_cert_challenge] returning [False]: the run has
    saved the checkpoint and, after it, called the configurator for
    virtual hosts only; no certificate was made, no file written, the
    server not reloaded, and the changes [make_server_sni_ready] made to
    earlier virtual hosts have not been saved. *)
Theorem perform_returning_false (listSNITuple : list SNITuple)
    (csr key : string) (s s' : store W) :
  perform_sni_cert_challenge listSNITuple csr key s = (Ok ReturnedFalse, s') ->
  exists calls,
    trace s' = trace s ++ checkpoint :: calls
    /\ Forall (fun ev => vhost_call ev = true) calls.
Proof.
  intros Hrun. unfold perform_sni_cert_challenge in Hrun.
  apply bind_ok_inv in Hrun as ([] & s1 & Hsave & Hrun).
  apply call_ok in Hsave as (Hs1 & _).
  apply bind_ok_inv in Hrun as (addresses & s2 & Hcollect & Hrun).
  destruct (collect_addresses_calls "*:443" listSNITuple [] s1)
    as (calls & Hcalls & Hall).
  rewrite Hcollect in Hcalls. cbn [snd] in Hcalls.
  destruct addresses as [addresses|].
  - apply perform_tail_returns in Hrun as [Hr _]. discriminate.
  - unfold ret in Hrun. injection Hrun as <-.
    exists calls. split; [|done].
    rewrite Hcalls, Hs1. by rewrite <- app_assoc.
Qed.

(** X21.  [perform_sni_cert_challenge] running to its end: the last three
    calls of the run are the write of the challenge configuration file,
    [configurator.save("SNI Challenge", True)] and the reload of the
    server, in this order, after the checkpoint; the file holds one
    address list for each challenge, and the nonce of the last challenge
    in every virtual host. *)
Theorem perform_running_to_end (listSNITuple : list SNITuple)
    (csr key : string) (s s' : store W) :
  perform_sni_cert_challenge listSNITuple csr key s = (Ok ReturnedNone, s') ->
  exists tup addresses calls,
    last listSNITuple = Some tup
    /\ length addresses = length listSNITuple
    /\ trace s' =
       trace s ++ checkpoint :: calls
       ++ [FileWrite APACHE_CHALLENGE_CONF
             (challenge_config_text (tup2 tup) addresses key);
           CfgSave "SNI Challenge" (Some true);
           SubprocessCall ["sudo"; "/etc/init.d/apache2"; "reload"]].
Proof.
  intros Hrun. unfold perform_sni_cert_challenge in Hrun.
  apply bind_ok_inv in Hrun as ([] & s1 & Hsave & Hrun).
  apply call_ok in Hsave as (Hs1 & _).
  apply bind_ok_inv in Hrun as (addresses & s2 & Hcollect & Hrun).
  destruct (collect_addresses_calls "*:443" listSNITuple [] s1)
    as (c1 & Hc1 & _).
  rewrite Hcollect in Hc1. cbn [snd] in Hc1.
  destruct addresses as [addresses|]; [|discriminate].
  apply collect_addresses_length in Hcollect.
  apply perform_tail_returns in Hrun as (_ & tup & c2 & Hlast & Htrace).
  exists tup, addresses, (c1 ++ c2). split; [done|]. split; [done|].
  rewrite Htrace, Hc1, Hs1. rewrite <- !app_assoc. done.
Qed.

Lemma remove_loop_calls (listSNITuple : list SNITuple) (s : store W) :
  let run :=
    for_each listSNITuple (fun tup =>
      call (FileRemove (getChocCertFile (tup2 tup)))
           (remove (getChocCertFile (tup2 tup)))) s in
  exists calls,
    trace run.2 = trace s ++ calls
    /\ calls `prefix_of`
       ((fun tup => FileRemove (getChocCertFile (tup2 tup))) <$> listSNITuple)
    /\ (run.1 = Ok tt ->
        calls =
        (fun tup => FileRemove (getChocCertFile (tup2 tup))) <$> listSNITuple).
Proof.
  cbv zeta. revert s.
  induction listSNITuple as [|tup rest IH]; intros s.
  - exists []. split; [by rewrite app_nil_r|]. split; [done|done].
  - cbn [for_each]. unfold bind. rewrite fmap_cons.
    pose proof (call_trace (FileRemove (getChocCertFile (tup2 tup)))
                  (remove (getChocCertFile (tup2 tup))) s) as [Hcall _].
    destruct (call (FileRemove (getChocCertFile (tup2 tup))) _ s)
      as [[[]|e] s1]; cbn [fst snd] in *.
    + destruct (IH s1) as (calls & Hcalls & Hprefix & Hall).
      exists (FileRemove (getChocCertFile (tup2 tup)) :: calls).
      split; [by rewrite Hcalls, Hcall, <- app_assoc|]. split.
      * by apply prefix_cons.
      * intros Hok. by rewrite Hall.
    + exists [FileRemove (getChocCertFile (tup2 tup))].
      split; [done|]. split; [|done].
      apply prefix_cons, prefix_nil.
Qed.

Lemma cleanup_run (listSNITuple : list SNITuple) (s : store W) :
  cleanup listSNITuple s =
  match call CfgRevertConfig revert_config s with
  | (Ok _, s1) =>
      match call (SubprocessCall ["sudo"; "/etc/init.d/apache2"; "reload"])
                 (subprocess_call ["sudo"; "/etc/init.d/apache2"; "reload"])
                 s1 with
      | (Ok _, s2) =>
          match for_each listSNITuple (fun tup =>
                  call (FileRemove (getChocCertFile (tup2 tup)))
                       (remove (getChocCertFile (tup2 tup)))) s2 with
          | (Ok _, s3) =>
              call (FileRemove APACHE_CHALLENGE_CONF)
                   (remove APACHE_CHALLENGE_CONF) s3
          | (Raise e, s3) => (Raise e, s3)
          end
      | (Raise e, s2) => (Raise e, s2)
      end
  | (Raise e, s1) => (Raise e, s1)
  end.
Proof.
  unfold cleanup, apache_restart, remove_files, bind, ret.
  destruct (call CfgRevertConfig revert_config s) as [[[]|e] s1]; [|done].
  destruct (call (SubprocessCall _) _ s1) as [[status|e] s2]; [|done].
  by destruct (for_each listSNITuple _ s2) as [[[]|e] s3].
Qed.

(** X22.  The calls of [cleanup]: in every run they are, in this order,
    the revert of the configuration, the reload of the server, the removal
    of the certificate of each challenge and the removal of the challenge
    configuration file; a call that raises ends the run, so that the calls
    made are a beginning of this list, and all of it when [cleanup]
    returns. *)
Theorem cleanup_calls_in_order (listSNITuple : list SNITuple)
    (s : store W) :
  exists calls,
    trace (cleanup listSNITuple s).2 = trace s ++ calls
    /\ calls `prefix_of` cleanup_calls listSNITuple
    /\ ((cleanup listSNITuple s).1 = Ok tt ->
        calls = cleanup_calls listSNITuple).
Proof.
  rewrite cleanup_run. unfold cleanup_calls.
  set (reload := ["sudo"; "/etc/init.d/apache2"; "reload"]).
  set (removals := (fun tup => FileRemove (getChocCertFile (tup2 tup)))
                   <$> listSNITuple).
  pose proof (call_trace CfgRevertConfig revert_config s) as [Hrevert _].
  destruct (call CfgRevertConfig revert_config s) as [[[]|e] s1];
    cbn [fst snd] in *.
  2: { exists [CfgRevertConfig]. split; [done|]. split; [|done].
       by exists ([SubprocessCall reload] ++ removals
                  ++ [FileRemove APACHE_CHALLENGE_CONF]). }
  pose proof (call_trace (SubprocessCall reload) (subprocess_call reload) s1)
    as [Hreload _].
  destruct (call (SubprocessCall reload) _ s1) as [[status|e] s2];
    cbn [fst snd] in *.
  2: { exists [CfgRevertConfig; SubprocessCall reload].
       split; [by rewrite Hreload, Hrevert, <- app_assoc|]. split; [|done].
       by exists (removals ++ [FileRemove APACHE_CHALLENGE_CONF]). }
  destruct (remove_loop_calls listSNITuple s2) as (c3 & Hc3 & Hp3 & Hall3).
  cbv zeta in Hc3, Hall3. fold removals in Hp3, Hall3.
  destruct (for_each listSNITuple _ s2) as [[[]|e] s3]; cbn [fst snd] in *.
  - rewrite (Hall3 eq_refl) in Hc3.
    pose proof (call_trace (FileRemove APACHE_CHALLENGE_CONF)
                  (remove APACHE_CHALLENGE_CONF) s3) as [Hlast _].
    exists ([CfgRevertConfig; SubprocessCall reload] ++ removals
            ++ [FileRemove APACHE_CHALLENGE_CONF]).
    split; [|split; [reflexivity|reflexivity]].
    rewrite Hlast, Hc3, Hreload, Hrevert. rewrite <- !app_assoc.
    reflexivity.
  - exists ([CfgRevertConfig; SubprocessCall reload] ++ c3). split.
    + rewrite Hc3, Hreload, Hrevert. rewrite <- !app_assoc. reflexivity.
    + split; [|done]. destruct Hp3 as [k Hk]. rewrite Hk.
      exists (k ++ [FileRemove APACHE_CHALLENGE_CONF]).
      rewrite <- !app_assoc. reflexivity.
Qed.

End RunFacts.

Lemma perform_returning_false_witness :
  exists calls,
    trace (perform_sni_cert_challenge
             [MkTuple "example.com" "y1" "6e6f6e6365" "1.3.3.7";
              MkTuple "unknown.example.com" "y2" "6e6f6e636532" "1.3.3.7"]
             "req.pem" "key.pem" sim_initial_store).2
    = checkpoint :: calls
    /\ Forall (fun ev => vhost_call ev = true) calls.
Proof.
  apply (perform_returning_false
           [MkTuple "example.com" "y1" "6e6f6e6365" "1.3.3.7";
            MkTuple "unknown.example.com" "y2" "6e6f6e636532" "1.3.3.7"]
           "req.pem" "key.pem" sim_initial_store).
  by vm_compute.
Defined.

Lemma perform_running_to_end_witness :
  exists tup addresses calls,
    last sim_challenges = Some tup
    /\ length addresses = length sim_challenges
    /\ trace (perform_sni_cert_challenge sim_challenges "req.pem" "key.pem"
                sim_initial_store).2 =
       trace sim_initial_store ++ checkpoint :: calls
       ++ [FileWrite APACHE_CHALLENGE_CONF
             (challenge_config_text (tup2 tup) addresses "key.pem");
           CfgSave "SNI Challenge" (Some true);
           SubprocessCall ["sudo"; "/etc/init.d/apache2"; "reload"]].
Proof.
  apply (perform_running_to_end sim_challenges "req.pem" "key.pem"
           sim_initial_store).
  by vm_compute.
Defined.

Lemma updateCertConf_without_extension_witness :
  let s := Store (SimWorld {[CHOC_CERT_CONF := ["[ v3_ca ]" +:+ newline]]}
                           ∅ false 0 ∅) [] [] in
  let r := updateCertConf "1.3.3.7" "00" s in
  r.1 = Raise SystemExit
  /\ sim_files (world r.2) !! (CHOC_CERT_CONF +:+ ".tmp") = Some []
  /\ sim_files (world r.2) !! CHOC_CERT_CONF
     = Some ["[ v3_ca ]" +:+ newline].
Proof.
  intros s r. subst r.
  erewrite (updateCertConf_without_extension "1.3.3.7" "00" s
              ["[ v3_ca ]" +:+ newline]); cycle 1.
  - reflexivity.
  - reflexivity.
  - reflexivity.
  - intros line Hline. apply list_elem_of_singleton in Hline as ->.
    reflexivity.
  - reflexivity.
  - split; [reflexivity|]. split; reflexivity.
Defined.

Lemma findApacheConfigFile_output_witness :
  (findApacheConfigFile sim_initial_store).1
  = Ok (Some "/etc/apache2/httpd.conf").
Proof.
  destruct (findApacheConfigFile_output sim_initial_store
              ("/etc/apache2/httpd.conf" +:+ newline) sim_initial_world)
    as [Hrun _].
  - reflexivity.
  - by rewrite Hrun.
Defined.

End SniRunFacts.
